(** * The EV3 command bridge of [index.js]

    A shallow embedding of the three functions of [index.js] that make up the
    bridge between the HTTP front door and the robot's TCP controller:

    - [validateCommand]    (index.js, lines 123-161),
    - the command translation [switch] of [controlRobot] (lines 177-269),
    - [sendCommandToRobot] (lines 16-121): the wire record it builds and the
      socket event handlers it registers.

    The JavaScript built-ins the code relies on ([String.prototype.trim],
    [includes], [split], [JSON.parse], truthiness, [||], the relational
    operators, [JSON.stringify]) are modelled first, following ECMA-262.
    The authentication gate of auth.js, the registered handler with its
    [cors] preflight answer, and the [MindstormsController] of
    test-client.js follow the bridge. *)

From Stdlib Require Import QArith Ascii.
From stdpp Require Import strings gmap list.

Local Open Scope N_scope.

(** ** JavaScript strings

    A JavaScript string is a sequence of UTF-16 code units.  [js] embeds an
    ASCII literal of the source text. *)

Abbreviation jsstring := (list N).

Fixpoint js (s : string) : jsstring :=
  match s with
  | EmptyString => []
  | String a rest => N_of_ascii a :: js rest
  end.

Arguments js : simpl never.

(** [a === b] on strings *)
Fixpoint str_eqb (a b : jsstring) : bool :=
  match a, b with
  | [], [] => true
  | x :: a', y :: b' => (x =? y) && str_eqb a' b'
  | _, _ => false
  end.

(** [WhiteSpace] and [LineTerminator] of ECMA-262: the code units stripped by
    [String.prototype.trim] and skipped by [StringToNumber]. *)
Definition is_js_space (c : N) : bool :=
  (c =? 9) || (c =? 10) || (c =? 11) || (c =? 12) || (c =? 13) || (c =? 32)
  || (c =? 160) || (c =? 5760) || ((8192 <=? c) && (c <=? 8202))
  || (c =? 8232) || (c =? 8233) || (c =? 8239) || (c =? 8287)
  || (c =? 12288) || (c =? 65279).

Fixpoint trimStart (s : jsstring) : jsstring :=
  match s with
  | c :: rest => if is_js_space c then trimStart rest else s
  | [] => []
  end.

Definition trimEnd (s : jsstring) : jsstring := rev (trimStart (rev s)).

(** [s.trim()] *)
Definition trim (s : jsstring) : jsstring := trimEnd (trimStart s).

Fixpoint startsWith (s sub : jsstring) {struct sub} : bool :=
  match sub, s with
  | [], _ => true
  | x :: sub', y :: s' => (x =? y) && startsWith s' sub'
  | _ :: _, [] => false
  end.

(** [s.includes(sub)] *)
Fixpoint includes (s sub : jsstring) : bool :=
  startsWith s sub ||
  match s with
  | [] => false
  | _ :: s' => includes s' sub
  end.

Definition LF : N := 10.

(** [s.split('\n')]: the segments between line feeds; never empty. *)
Fixpoint split_lf (s : jsstring) : list jsstring :=
  match s with
  | [] => [[]]
  | c :: rest =>
      if c =? LF then [] :: split_lf rest
      else match split_lf rest with
           | seg :: segs => (c :: seg) :: segs
           | [] => [[c]]
           end
  end.

(** ** JavaScript numbers and values

    A number is NaN, an infinity, or a finite value; a finite double is
    represented by the rational it denotes, so comparisons are exact.  The
    rounding done when a decimal literal is read is not modelled: a literal
    denotes its exact rational value.  Negative zero is identified with
    zero (both are falsy and print as [0]). *)

Inductive Number : Type :=
  | NaN
  | Infinity (negative : bool)
  | Finite (q : Q).

#[warnings="-register-all"]
Inductive JSValue : Type :=
  | JUndefined
  | JNull
  | JBool (b : bool)
  | JNum (n : Number)
  | JStr (s : jsstring)
  | JArr (elems : list JSValue)
  | JObj (props : list (jsstring * JSValue)).

Definition num (z : Z) : JSValue := JNum (Finite (inject_Z z)).

(** Objects built by the code keep their properties in insertion order. *)
Abbreviation JSObject := (list (list N * JSValue)).

(** [obj[key] = v]: overwrite in place, or append a new property. *)
Fixpoint obj_set (obj : JSObject) (key : jsstring) (v : JSValue) : JSObject :=
  match obj with
  | [] => [(key, v)]
  | (k, w) :: rest =>
      if str_eqb k key then (k, v) :: rest else (k, w) :: obj_set rest key v
  end.

Fixpoint obj_get (obj : JSObject) (key : jsstring) : JSValue :=
  match obj with
  | [] => JUndefined
  | (k, w) :: rest => if str_eqb k key then w else obj_get rest key
  end.

(** [Object.assign(target, source)] *)
Definition Object_assign (target source : JSObject) : JSObject :=
  foldl (fun acc kv => obj_set acc kv.1 kv.2) target source.

(** [ToBoolean] *)
Definition truthy (v : JSValue) : bool :=
  match v with
  | JUndefined | JNull => false
  | JBool b => b
  | JNum NaN => false
  | JNum (Infinity _) => true
  | JNum (Finite q) => negb (Qeq_bool q 0)
  | JStr s => match s with [] => false | _ => true end
  | JArr _ | JObj _ => true
  end.

(** [a || b] *)
Definition js_or (a b : JSValue) : JSValue := if truthy a then a else b.

(** [typeof v === 'string'] *)
Definition is_string (v : JSValue) : bool :=
  match v with JStr _ => true | _ => false end.

(** [v !== null] and [v !== undefined] *)
Definition not_null (v : JSValue) : bool :=
  match v with JNull => false | _ => true end.
Definition not_undefined (v : JSValue) : bool :=
  match v with JUndefined => false | _ => true end.

(** ** Numeric literals

    Digits, [StringToNumber] (ECMA-262 7.1.4.1.1) and the relational
    operators against a numeric literal. *)

Definition is_digit (c : N) : bool := (48 <=? c) && (c <=? 57).

Definition hex_val (c : N) : option N :=
  if is_digit c then Some (c - 48)
  else if (97 <=? c) && (c <=? 102) then Some (c - 87)
  else if (65 <=? c) && (c <=? 70) then Some (c - 55)
  else None.

Fixpoint span_digits (s : jsstring) : jsstring * jsstring :=
  match s with
  | c :: rest =>
      if is_digit c
      then let '(ds, r) := span_digits rest in (c :: ds, r)
      else ([], s)
  | [] => ([], [])
  end.

Definition digits_value (ds : jsstring) : N :=
  foldl (fun acc d => 10 * acc + (d - 48)) 0 ds.

(** The value of [ip.fp] times ten to the [e]. *)
Definition decimal_value (ip fp : jsstring) (e : Z) : Q :=
  (inject_Z (Z.of_N (digits_value (ip ++ fp)))
   * Qpower (inject_Z 10) (e - Z.of_nat (length fp)))%Q.

(** An optional exponent part that must reach the end of [s]. *)
Definition exponent_to_end (s : jsstring) : option Z :=
  match s with
  | [] => Some 0%Z
  | c :: r =>
      if (c =? 101) || (c =? 69) then
        let '(neg, r1) :=
          match r with
          | 45 :: r' => (true, r')
          | 43 :: r' => (false, r')
          | _ => (false, r)
          end in
        match span_digits r1 with
        | (d :: ds, []) =>
            let z := Z.of_N (digits_value (d :: ds)) in
            Some (if neg then (- z)%Z else z)
        | _ => None
        end
      else None
  end.

(** [StrUnsignedDecimalLiteral], without [Infinity]. *)
Definition unsigned_decimal (s : jsstring) : option Q :=
  let '(ip, r1) := span_digits s in
  let '(fp, r2) :=
    match r1 with
    | 46 :: r => span_digits r
    | _ => ([], r1)
    end in
  match ip ++ fp with
  | [] => None
  | _ => option_map (decimal_value ip fp) (exponent_to_end r2)
  end.

(** Digits of [radix] up to the end of [s], at least one. *)
Fixpoint radix_digits (radix : N) (s : jsstring) (acc : N) : option N :=
  match s with
  | [] => Some acc
  | c :: rest =>
      match hex_val c with
      | Some d => if d <? radix then radix_digits radix rest (radix * acc + d) else None
      | None => None
      end
  end.

Definition non_decimal (s : jsstring) : option N :=
  match s with
  | 48 :: p :: d :: rest =>
      if (p =? 120) || (p =? 88) then radix_digits 16 (d :: rest) 0
      else if (p =? 111) || (p =? 79) then radix_digits 8 (d :: rest) 0
      else if (p =? 98) || (p =? 66) then radix_digits 2 (d :: rest) 0
      else None
  | _ => None
  end.

Definition of_option_Q (neg : bool) (o : option Q) : Number :=
  match o with
  | Some q => Finite (if neg then (- q)%Q else q)
  | None => NaN
  end.

Definition StringToNumber (s : jsstring) : Number :=
  let t := trim s in
  match t with
  | [] => Finite 0
  | c :: r =>
      match non_decimal t with
      | Some n => Finite (inject_Z (Z.of_N n))
      | None =>
          let '(neg, u) :=
            if c =? 45 then (true, r) else if c =? 43 then (false, r) else (false, t) in
          if str_eqb u (js "Infinity") then Infinity neg
          else of_option_Q neg (unsigned_decimal u)
      end
  end.

(** [ToNumber].  An array is first converted to a string by [join(',')]:
    with two or more elements the comma makes the result NaN; with one
    element the element's own string is read back.  An object converts
    through [Object.prototype.toString] to NaN.  Not modelled: an object
    that has a property [toString] of its own (and an array that holds one)
    has nothing callable to convert it, and the comparison throws a
    TypeError instead; the statements on non-numeric values below keep to
    strings. *)
Fixpoint ToNumber (v : JSValue) : Number :=
  match v with
  | JUndefined => NaN
  | JNull => Finite 0
  | JBool b => Finite (if b then 1 else 0)
  | JNum n => n
  | JStr s => StringToNumber s
  | JArr [] => Finite 0
  | JArr [x] =>
      match x with
      | JUndefined | JNull => Finite 0
      | JBool _ | JObj _ => NaN
      | JNum n => n
      | JStr s => StringToNumber s
      | JArr _ => ToNumber x
      end
  | JArr (_ :: _ :: _) => NaN
  | JObj _ => NaN
  end.

(** [a < b] and [a > b] on numbers: false as soon as one side is NaN. *)
Definition num_lt (a b : Number) : bool :=
  match a, b with
  | NaN, _ | _, NaN => false
  | Finite x, Finite y => negb (Qle_bool y x)
  | Infinity true, Infinity true => false
  | Infinity true, _ => true
  | Finite _, Infinity false => true
  | _, _ => false
  end.

(** [v < n] and [v > n] for a numeric literal [n]. *)
Definition js_lt (v : JSValue) (n : Z) : bool :=
  num_lt (ToNumber v) (Finite (inject_Z n)).
Definition js_gt (v : JSValue) (n : Z) : bool :=
  num_lt (Finite (inject_Z n)) (ToNumber v).

(** ** [JSON.parse]

    The JSON grammar of ECMA-404.  Recursion is on a fuel that bounds the
    depth of the call chain.  Every second call on a chain consumes at least
    one character of the text, so the [2 * length text + 2] that [parse]
    supplies is never exhausted. *)

Module JSON.

Definition is_ws (c : N) : bool :=
  (c =? 32) || (c =? 9) || (c =? 10) || (c =? 13).

Fixpoint skip_ws (s : jsstring) : jsstring :=
  match s with
  | c :: rest => if is_ws c then skip_ws rest else s
  | [] => []
  end.

(** The characters of a string literal after its opening quote. *)
Fixpoint parse_chars (s acc : jsstring) : option (jsstring * jsstring) :=
  match s with
  | [] => None
  | c :: rest =>
      if c =? 34 then Some (rev acc, rest)
      else if c =? 92 then
        match rest with
        | e :: rest' =>
            if e =? 34 then parse_chars rest' (34 :: acc)
            else if e =? 92 then parse_chars rest' (92 :: acc)
            else if e =? 47 then parse_chars rest' (47 :: acc)
            else if e =? 98 then parse_chars rest' (8 :: acc)
            else if e =? 102 then parse_chars rest' (12 :: acc)
            else if e =? 110 then parse_chars rest' (10 :: acc)
            else if e =? 114 then parse_chars rest' (13 :: acc)
            else if e =? 116 then parse_chars rest' (9 :: acc)
            else if e =? 117 then
              match rest' with
              | h1 :: h2 :: h3 :: h4 :: rest'' =>
                  match hex_val h1, hex_val h2, hex_val h3, hex_val h4 with
                  | Some a, Some b, Some c', Some d =>
                      parse_chars rest'' (((a * 16 + b) * 16 + c') * 16 + d :: acc)
                  | _, _, _, _ => None
                  end
              | _ => None
              end
            else None
        | [] => None
        end
      else if c <? 32 then None
      else parse_chars rest (c :: acc)
  end.

(** [-? (0 | [1-9] digits) (. digits+)? ([eE] [+-]? digits+)?] *)
Definition parse_number (s : jsstring) : option (Q * jsstring) :=
  let '(neg, s1) := match s with 45 :: r => (true, r) | _ => (false, s) end in
  let '(ip, r1) := span_digits s1 in
  let int_ok :=
    match ip with
    | [] => false
    | [_] => true
    | d :: _ => negb (d =? 48)
    end in
  if negb int_ok then None else
  let frac :=
    match r1 with
    | 46 :: r =>
        match span_digits r with
        | ([], _) => None
        | (fp, r2) => Some (fp, r2)
        end
    | _ => Some ([], r1)
    end in
  match frac with
  | None => None
  | Some (fp, r2) =>
      let expo :=
        match r2 with
        | c :: r =>
            if (c =? 101) || (c =? 69) then
              let '(eneg, r3) :=
                match r with
                | 45 :: r' => (true, r')
                | 43 :: r' => (false, r')
                | _ => (false, r)
                end in
              match span_digits r3 with
              | ([], _) => None
              | (ds, r4) =>
                  let z := Z.of_N (digits_value ds) in
                  Some (if eneg then (- z)%Z else z, r4)
              end
            else Some (0%Z, r2)
        | [] => Some (0%Z, r2)
        end in
      match expo with
      | None => None
      | Some (e, r5) =>
          let q := decimal_value ip fp e in
          Some (if neg then (- q)%Q else q, r5)
      end
  end.

(** [s] starts with the literal [lit]: the text after it. *)
Definition expect (lit : string) (s : jsstring) : option jsstring :=
  if startsWith s (js lit) then Some (drop (length (js lit)) s) else None.

Fixpoint parse_value (fuel : nat) (s : jsstring) : option (JSValue * jsstring) :=
  match fuel with
  | O => None
  | S f =>
      match skip_ws s with
      | [] => None
      | c :: r =>
          if c =? 123 then
            match skip_ws r with
            | 125 :: r' => Some (JObj [], r')
            | _ => parse_members f r []
            end
          else if c =? 91 then
            match skip_ws r with
            | 93 :: r' => Some (JArr [], r')
            | _ => parse_elements f r []
            end
          else if c =? 34 then
            match parse_chars r [] with
            | Some (str, r') => Some (JStr str, r')
            | None => None
            end
          else if c =? 116 then option_map (pair (JBool true)) (expect "true" (c :: r))
          else if c =? 102 then option_map (pair (JBool false)) (expect "false" (c :: r))
          else if c =? 110 then option_map (pair JNull) (expect "null" (c :: r))
          else
            match parse_number (c :: r) with
            | Some (q, r') => Some (JNum (Finite q), r')
            | None => None
            end
      end
  end
with parse_elements (fuel : nat) (s : jsstring) (acc : list JSValue)
  : option (JSValue * jsstring) :=
  match fuel with
  | O => None
  | S f =>
      match parse_value f s with
      | None => None
      | Some (v, r) =>
          match skip_ws r with
          | c :: r' =>
              if c =? 44 then parse_elements f r' (v :: acc)
              else if c =? 93 then Some (JArr (rev (v :: acc)), r')
              else None
          | [] => None
          end
      end
  end
with parse_members (fuel : nat) (s : jsstring) (acc : JSObject)
  : option (JSValue * jsstring) :=
  match fuel with
  | O => None
  | S f =>
      match skip_ws s with
      | 34 :: r0 =>
          match parse_chars r0 [] with
          | None => None
          | Some (key, r1) =>
              match skip_ws r1 with
              | 58 :: r2 =>
                  match parse_value f r2 with
                  | None => None
                  | Some (v, r3) =>
                      match skip_ws r3 with
                      | c :: r4 =>
                          if c =? 44 then parse_members f r4 (obj_set acc key v)
                          else if c =? 125 then Some (JObj (obj_set acc key v), r4)
                          else None
                      | [] => None
                      end
                  end
              | _ => None
              end
          end
      | _ => None
      end
  end.

(** [JSON.parse(text)]: [None] when it throws a [SyntaxError]. *)
Definition parse (text : jsstring) : option JSValue :=
  match parse_value (2 * length text + 2) text with
  | Some (v, rest) =>
      match skip_ws rest with
      | [] => Some v
      | _ :: _ => None
      end
  | None => None
  end.

End JSON.

(** ** [sendCommandToRobot]: the wire record (index.js, lines 16-32) *)

(** A parameter declared [p = null] takes its default when the argument is
    [undefined]. *)
Definition default_arg (v dflt : JSValue) : JSValue :=
  match v with JUndefined => dflt | _ => v end.

(** The [command] object of lines 23-30. *)
Definition build_command (action direction speed duration : JSValue)
    (params : JSObject) : JSObject :=
  let direction := default_arg direction JNull in
  let speed := default_arg speed JNull in
  let duration := default_arg duration JNull in
  let command := [(js "action", action)] in
  let command :=
    if truthy direction then obj_set command (js "direction") direction else command in
  let command :=
    if not_null speed then obj_set command (js "speed") speed else command in
  let command :=
    if not_null duration then obj_set command (js "duration") duration else command in
  Object_assign command params.

(** The value [JSON.stringify] writes for a value: NaN and the infinities
    are written as [null], and so is an [undefined] array element;
    [undefined] members of an object are left out. *)
Fixpoint json_value (v : JSValue) : JSValue :=
  match v with
  | JUndefined => JNull
  | JNum NaN | JNum (Infinity _) => JNull
  | JArr elems => JArr (map json_value elems)
  | JObj props =>
      JObj ((fix members (ps : JSObject) : JSObject :=
               match ps with
               | [] => []
               | (k, JUndefined) :: rest => members rest
               | (k, w) :: rest => (k, json_value w) :: members rest
               end) props)
  | _ => v
  end.

(** The members [JSON.stringify] writes for an object: every own property
    whose value is not [undefined], in insertion order, each with the value
    [JSON.stringify] writes for it.  The wire text of a record is kept at
    this level (member names and values); the rendering of numbers as text
    is not modelled. *)
Definition JSON_stringify_members (obj : JSObject) : JSObject :=
  map (fun kv => (kv.1, json_value kv.2))
      (List.filter (fun kv => not_undefined kv.2) obj).

(** The names of the members of the serialized message. *)
Definition wire_fields (obj : JSObject) : list jsstring :=
  (JSON_stringify_members obj).*1.

(** [JSON.stringify(command) + '\n'], as handed to [client.write]. *)
Inductive Frame : Type :=
  | JsonLine (members : JSObject).

(** ** [sendCommandToRobot]: the socket handlers (lines 34-119) *)

(** A call of the promise's [resolve] or [reject]. *)
Inductive Settlement : Type :=
  | Resolve (value : JSValue)
  | Reject (message : jsstring).

(** The state of one invocation: the message computed at line 32, the
    [buffer] of line 44, and the effects performed so far. *)
Record Session : Type := mkSession {
  message : Frame;
  listening : bool;               (* the 'data' listener is registered *)
  buffer : jsstring;
  written : list Frame;           (* calls of client.write, oldest first *)
  destroyed : bool;               (* client.destroy() was called *)
  closed : bool;                  (* 'close' was emitted *)
  settlements : list Settlement   (* calls of resolve/reject, oldest first *)
}.

(** A promise is settled by the first call of [resolve] or [reject]; later
    calls have no effect. [None]: still pending. *)
Definition outcome (s : Session) : option Settlement := head (settlements s).

Definition is_greeting (message : jsstring) : bool :=
  includes message (js "Welcome") || includes message (js "Send JSON").

(** The text response of line 99: [{ success: true, response: message.trim() }] *)
Definition text_response (message : jsstring) : JSValue :=
  JObj [(js "success", JBool true); (js "response", JStr (trim message))].

(** The loop of lines 66-103 over the complete messages: the value it
    resolves with, or [None] when it runs to the end. *)
Fixpoint process_messages (messages : list jsstring) : option JSValue :=
  match messages with
  | [] => None
  | message :: rest =>
      if negb (truthy (JStr (trim message))) then process_messages rest
      else if is_greeting message then process_messages rest
      else
        match JSON.parse message with
        | Some parsed => Some parsed
        | None =>
            if (0 <? length (trim message))%nat then Some (text_response message)
            else process_messages rest
        end
  end.

(** The 'connect' callback (lines 34-44). *)
Definition on_connect (s : Session) : Session :=
  mkSession (message s) true [] (written s ++ [message s])
            (destroyed s) (closed s) (settlements s).

(** The 'data' listener (lines 45-105). [chunk] is [data.toString()]. *)
Definition on_data (s : Session) (chunk : jsstring) : Session :=
  let buffer := buffer s ++ chunk in
  let messages := split_lf buffer in
  let popped := match last messages with
                | Some m => JStr m
                | None => JUndefined
                end in
  let buffer := match js_or popped (JStr []) with
                | JStr b => b
                | _ => []
                end in
  let messages := removelast messages in
  match process_messages messages with
  | Some v =>
      mkSession (message s) (listening s) buffer (written s)
                true (closed s) (settlements s ++ [Resolve v])
  | None =>
      mkSession (message s) (listening s) buffer (written s)
                (destroyed s) (closed s) (settlements s)
  end.

(** The 'timeout' listener (lines 108-111). *)
Definition on_timeout (s : Session) : Session :=
  mkSession (message s) (listening s) (buffer s) (written s)
            true (closed s)
            (settlements s ++ [Reject (js "Connection timeout")]).

(** The 'error' listener (lines 113-115). *)
Definition on_error (s : Session) (msg : jsstring) : Session :=
  mkSession (message s) (listening s) (buffer s) (written s)
            (destroyed s) (closed s)
            (settlements s ++ [Reject (js "Connection error: " ++ msg)]).

(** The 'close' listener (lines 117-119): it only logs. *)
Definition on_close (s : Session) : Session := s.

(** The events of a [net.Socket]. *)
Inductive Event : Type :=
  | OnConnect
  | OnData (chunk : jsstring)
  | OnTimeout
  | OnError (message : jsstring)
  | OnClose.

Definition mark_destroyed (s : Session) : Session :=
  mkSession (message s) (listening s) (buffer s) (written s)
            true (closed s) (settlements s).

Definition mark_closed (s : Session) : Session :=
  mkSession (message s) (listening s) (buffer s) (written s)
            true true (settlements s).

(** How Node delivers socket events to the listeners: nothing after 'close';
    a destroyed socket emits no 'connect', 'data', 'timeout' or 'error', only
    its 'close'; 'data' reaches the listener once it is registered; an 'error'
    destroys the socket. *)
Definition emit (s : Session) (e : Event) : Session :=
  if closed s then s
  else
    match e with
    | OnConnect => if destroyed s || listening s then s else on_connect s
    | OnData chunk => if destroyed s || negb (listening s) then s else on_data s chunk
    | OnTimeout => if destroyed s then s else on_timeout s
    | OnError msg => if destroyed s then s else mark_destroyed (on_error s msg)
    | OnClose => mark_closed (on_close s)
    end.

Definition run (s : Session) (events : list Event) : Session :=
  foldl emit s events.

(** [sendCommandToRobot(action, direction, speed, duration, params)]: the
    session as the promise executor leaves it, before any event. *)
Definition sendCommandToRobot (action direction speed duration : JSValue)
    (params : JSObject) : Session :=
  mkSession
    (JsonLine (JSON_stringify_members
                 (build_command action direction speed duration params)))
    false [] [] false false [].

(** ** [validateCommand] (lines 123-161) *)

(** [params.key]: [undefined] when the request's object has no such property. *)
Definition param (params : gmap jsstring JSValue) (key : string) : JSValue :=
  default JUndefined (params !! js key).

Definition validCommands : list jsstring :=
  [js "forward"; js "backward"; js "left"; js "right"; js "turret_left";
   js "turret_right"; js "stop"; js "stop_turret"; js "get_status";
   js "joystick_control"; js "get_help"; js "speak"; js "battery"; js "beep"].

(** [array.includes(s)] for an array of strings *)
Definition array_includes (array : list jsstring) (s : jsstring) : bool :=
  existsb (str_eqb s) array.

(** [text.length], read at line 157 on a value already known to be a string *)
Definition string_length (v : JSValue) : nat :=
  match v with JStr s => length s | _ => 0%nat end.

Inductive Completion : Type :=
  | Normal
  | Throw (message : jsstring).

Definition speed_message : jsstring := js "Speed must be between 0 and 2000".
Definition duration_message : jsstring :=
  js "Duration cannot exceed 10 seconds for safety".
Definition text_required_message : jsstring :=
  js "Text parameter is required for speak command".
Definition text_length_message : jsstring :=
  js "Text length cannot exceed 500 characters".

(** The condition of line 145:
    [params.speed && (params.speed < 0 || params.speed > 2000)] *)
Definition speed_rejected (params : gmap jsstring JSValue) : bool :=
  truthy (param params "speed")
  && (js_lt (param params "speed") 0 || js_gt (param params "speed") 2000).

(** The condition of line 149: [params.duration && params.duration > 10] *)
Definition duration_rejected (params : gmap jsstring JSValue) : bool :=
  truthy (param params "duration") && js_gt (param params "duration") 10.

Definition validateCommand (command : jsstring)
    (params : gmap jsstring JSValue) : Completion :=
  if negb (array_includes validCommands command) then
    Throw (js "Invalid command: " ++ command)
  else if speed_rejected params then Throw speed_message
  else if duration_rejected params then Throw duration_message
  else if str_eqb command (js "speak") then
    if negb (truthy (param params "text")) || negb (is_string (param params "text"))
    then Throw text_required_message
    else if (500 <? string_length (param params "text"))%nat
    then Throw text_length_message
    else Normal
  else Normal.

(** ** The translation [switch] of [controlRobot] (lines 188-267) *)

(** The five variables of line 188 as the [switch] leaves them. *)
Record Translation : Type := mkTranslation {
  action : JSValue;
  direction : JSValue;
  speed : JSValue;
  duration : JSValue;
  extraParams : JSObject
}.

Definition movement (act dir : string) (default_speed : Z)
    (params : gmap jsstring JSValue) : Translation :=
  mkTranslation (JStr (js act)) (JStr (js dir))
    (js_or (param params "speed") (num default_speed))
    (js_or (param params "duration") (num 0))
    [].

Definition plain (act : string) : Translation :=
  mkTranslation (JStr (js act)) JUndefined JUndefined JUndefined [].

(** [None]: the [default] branch, which answers 400. *)
Definition translate (command : jsstring)
    (params : gmap jsstring JSValue) : option Translation :=
  if str_eqb command (js "forward") then Some (movement "move" "forward" 500 params)
  else if str_eqb command (js "backward") then Some (movement "move" "backward" 500 params)
  else if str_eqb command (js "left") then Some (movement "move" "left" 300 params)
  else if str_eqb command (js "right") then Some (movement "move" "right" 300 params)
  else if str_eqb command (js "turret_left") then Some (movement "turret" "left" 200 params)
  else if str_eqb command (js "turret_right") then Some (movement "turret" "right" 200 params)
  else if str_eqb command (js "stop") then Some (plain "stop")
  else if str_eqb command (js "stop_turret") then Some (plain "stop_turret")
  else if str_eqb command (js "get_status") then Some (plain "status")
  else if str_eqb command (js "get_help") then Some (plain "help")
  else if str_eqb command (js "joystick_control") then
    Some (mkTranslation (JStr (js "joystick")) JUndefined JUndefined JUndefined
            [(js "l_left", js_or (param params "l_left") (num 0));
             (js "l_forward", js_or (param params "l_forward") (num 0));
             (js "r_left", js_or (param params "r_left") (num 0));
             (js "r_forward", js_or (param params "r_forward") (num 0))])
  else if str_eqb command (js "speak") then
    Some (mkTranslation (JStr (js "speak")) JUndefined JUndefined JUndefined
            [(js "text", param params "text")])
  else if str_eqb command (js "battery") then Some (plain "battery")
  else if str_eqb command (js "beep") then
    let extra :=
      if not_undefined (param params "frequency")
         || not_undefined (param params "duration")
      then
        let extra := [] in
        let extra :=
          if not_undefined (param params "frequency")
          then obj_set extra (js "frequency") (param params "frequency") else extra in
        if not_undefined (param params "duration")
        then obj_set extra (js "duration") (param params "duration") else extra
      else [] in
    Some (mkTranslation (JStr (js "beep")) JUndefined JUndefined JUndefined extra)
  else None.

(** The Wire Action Record: the [command] object [sendCommandToRobot] builds
    from a translation. *)
Definition wire_record (t : Translation) : JSObject :=
  build_command (action t) (direction t) (speed t) (duration t) (extraParams t).

(** ** [controlRobot] (lines 177-286), after the authentication gate *)

(** The handler up to its [await]: either it has answered without opening a
    connection, or it waits on a session of [sendCommandToRobot].  The request
    body is taken as the envelope types it: [command] a string, [params] an
    object or absent. *)
Inductive Progress : Type :=
  | Replied (status : N) (error : jsstring)
  | Awaiting (session : Session).

(** [params] is [None] when the request body has no [params] member. *)
Definition controlRobot_begin (command : jsstring)
    (params : option (gmap jsstring JSValue)) : Progress :=
  let params := default ∅ params in
  if negb (truthy (JStr command)) then Replied 400 (js "Command is required")
  else
    match validateCommand command params with
    | Throw msg => Replied 500 msg
    | Normal =>
        match translate command params with
        | None => Replied 400 (js "Unsupported command: " ++ command)
        | Some t =>
            Awaiting (sendCommandToRobot (action t) (direction t) (speed t)
                        (duration t) (extraParams t))
        end
    end.

(** What the caller receives. *)
Inductive Response : Type :=
  | Success (command : jsstring) (result : JSValue)       (* 200 *)
  | Failure (status : N) (error : jsstring).              (* 400, 500 *)

(** The whole handler against the events of the socket; [None]: the handler
    is still waiting and nothing has been sent to the caller. *)
Definition controlRobot (command : jsstring)
    (params : option (gmap jsstring JSValue)) (events : list Event)
  : option Response :=
  match controlRobot_begin command params with
  | Replied status error => Some (Failure status error)
  | Awaiting session =>
      match outcome (run session events) with
      | Some (Resolve result) => Some (Success command result)
      | Some (Reject msg) => Some (Failure 500 msg)
      | None => None
      end
  end.

(** Whether the handler opens a TCP connection at all. *)
Definition connects (p : Progress) : bool :=
  match p with Awaiting _ => true | Replied _ _ => false end.

(** ** The response of a session, read off the whole inbound stream

    The description of the framing in terms of the concatenated stream, to be
    compared with what the handlers compute chunk by chunk. *)

(** The lines of the stream that are terminated by a line feed, and the
    unterminated text after the last line feed. *)
Definition complete_lines (stream : jsstring) : list jsstring :=
  removelast (split_lf stream).
Definition remainder (stream : jsstring) : jsstring :=
  List.last (split_lf stream) [].

(** Empty or whitespace-only. *)
Definition is_blank (line : jsstring) : bool :=
  match trim line with [] => true | _ :: _ => false end.

(** Neither blank nor a greeting. *)
Definition is_candidate (line : jsstring) : bool :=
  negb (is_blank line) && negb (is_greeting line).

(** The Response Message a line stands for: its JSON value, or else its
    trimmed text. *)
Definition response_of (line : jsstring) : JSValue :=
  match JSON.parse line with
  | Some parsed => parsed
  | None => text_response line
  end.

(** A buffer that holds no line feed. *)
Definition unterminated (b : jsstring) : Prop := split_lf b = [b].

(** The first candidate among the complete lines, in arrival order. *)
Definition first_candidate (stream : jsstring) : option jsstring :=
  find is_candidate (complete_lines stream).

(** The two fragments of the reply [{"ok":true}] followed by a line feed,
    the banner line and the plain-text line used in the framing examples. *)
Definition DQUOTE : N := 34.
Definition fragment_1 : jsstring := js "{" ++ [DQUOTE] ++ js "ok" ++ [DQUOTE] ++ js ":tr".
Definition fragment_2 : jsstring := js "ue}" ++ [LF].
Definition welcome_home_reply : jsstring :=
  js "{" ++ [DQUOTE] ++ js "reply" ++ [DQUOTE] ++ js ":"
  ++ [DQUOTE] ++ js "Welcome home" ++ [DQUOTE] ++ js "}".

(** ** The command table of the specification

    The optional fields each row of the table lists, and the fields for
    which the row defines a value of its own (a fixed direction, a default
    speed or duration, a default axis value); to be compared with the
    records the code builds. *)

Definition movement_commands : list jsstring :=
  [js "forward"; js "backward"; js "left"; js "right"; js "turret_left";
   js "turret_right"].

Definition parameterless_commands : list jsstring :=
  [js "stop"; js "stop_turret"; js "get_status"; js "get_help"; js "battery"].

Definition joystick_axes : list jsstring :=
  [js "l_left"; js "l_forward"; js "r_left"; js "r_forward"].

Definition spec_table_fields (command : jsstring) : list jsstring :=
  if array_includes movement_commands command
  then [js "direction"; js "speed"; js "duration"]
  else if str_eqb command (js "joystick_control") then joystick_axes
  else if str_eqb command (js "speak") then [js "text"]
  else if str_eqb command (js "beep") then [js "frequency"; js "duration"]
  else [].

Definition spec_table_default (command field : jsstring) : bool :=
  (array_includes movement_commands command
   && array_includes [js "direction"; js "speed"; js "duration"] field)
  || (str_eqb command (js "joystick_control")
      && array_includes joystick_axes field).

(** The default speed of the table's row. *)
Definition spec_default_speed (command : jsstring) : Z :=
  if array_includes [js "forward"; js "backward"] command then 500
  else if array_includes [js "left"; js "right"] command then 300
  else 200.

(** The caller's parameter bag has a value for [key]. *)
Definition supplied (params : gmap jsstring JSValue) (key : jsstring) : Prop :=
  exists v, params !! key = Some v /\ v <> JUndefined.

(** The member for [key] when the caller supplied a value, with that value
    as [JSON.stringify] writes it, and no member otherwise. *)
Definition optional_member (params : gmap jsstring JSValue) (key : jsstring)
  : JSObject :=
  match params !! key with
  | Some v => if not_undefined v then [(key, json_value v)] else []
  | None => []
  end.

(** ** What every session keeps

    The facts that hold of a session of [sendCommandToRobot] whatever the
    socket does: [msg] is the message of line 32. *)
Definition session_invariant (msg : Frame) (s : Session) : Prop :=
  message s = msg
  /\ written s = (if listening s then [msg] else [])
  /\ unterminated (buffer s)
  /\ (destroyed s = false -> settlements s = [])
  /\ (length (settlements s) <= 1)%nat
  /\ (closed s = true -> destroyed s = true).
(** ** The parameters the handler reads

    The names [validateCommand] and the translation [switch] look up in
    [params]; no other property of the object is ever read. *)
Definition known_params : list string :=
  ["speed"; "duration"; "text"; "l_left"; "l_forward"; "r_left"; "r_forward";
   "frequency"]%string.
(** ** The authentication gate (auth.js)

    [validateApiKey], [rateLimitCheck] with its clean-up timer, [getClientId]
    and [authenticateRequest]; in the sources the module follows
    test-client.js, lines 162-240.  The state of the module is [requestCounts],
    a map from client identifiers to the timestamps of their accepted
    requests; [Date.now()] is a parameter of each call, and SHA-256 is a
    parameter of [getClientId]. *)

(** [s.replace(pat, rep)] for a string pattern: the first occurrence of
    [pat] is replaced ([rep] holds no [$] pattern here). *)
Fixpoint String_replace (s pat rep : jsstring) : jsstring :=
  if startsWith s pat then rep ++ drop (length pat) s
  else match s with
       | [] => []
       | c :: rest => c :: String_replace rest pat rep
       end.

(** [s.split(sep)] for a separator of one code unit. *)
Fixpoint split_char (sep : N) (s : jsstring) : list jsstring :=
  match s with
  | [] => [[]]
  | c :: rest =>
      if c =? sep then [] :: split_char sep rest
      else match split_char sep rest with
           | seg :: segs => (c :: seg) :: segs
           | [] => [[c]]
           end
  end.

Definition COMMA : N := 44.

(** [req.headers[name]]: Node gives each of the headers read here as one
    string, or [undefined] when the request does not carry it. *)
Definition header (headers : gmap jsstring jsstring) (name : string) : JSValue :=
  match headers !! js name with
  | Some v => JStr v
  | None => JUndefined
  end.

(** [process.env.API_KEY || 'your-secret-api-key'] *)
Definition API_KEY (env : option jsstring) : jsstring :=
  match js_or (match env with Some k => JStr k | None => JUndefined end)
              (JStr (js "your-secret-api-key")) with
  | JStr k => k
  | _ => []
  end.

(** [v !== s] for a string [s] *)
Definition differs_from (v : JSValue) (s : jsstring) : bool :=
  match v with
  | JStr x => negb (str_eqb x s)
  | _ => true
  end.

Definition validateApiKey (env : option jsstring)
    (headers : gmap jsstring jsstring) : Completion :=
  let bearer :=
    match header headers "authorization" with
    | JStr a => JStr (String_replace a (js "Bearer ") [])
    | _ => JUndefined
    end in
  let apiKey := js_or (header headers "x-api-key") bearer in
  if negb (truthy apiKey) then Throw (js "API key is required")
  else if differs_from apiKey (API_KEY env) then Throw (js "Invalid API key")
  else Normal.

Definition RATE_LIMIT_WINDOW : Z := 60000.
Definition MAX_REQUESTS_PER_WINDOW : nat := 100.

Definition rate_limit_message : jsstring :=
  js "Rate limit exceeded. Please try again later.".

(** [requests.filter(timestamp => timestamp > windowStart)] *)
Definition recent (windowStart : Z) (requests : list Z) : list Z :=
  List.filter (fun timestamp => (windowStart <? timestamp)%Z) requests.

(** [rateLimitCheck(clientId)] at the time [now]: its completion and the
    map it leaves. *)
Definition rateLimitCheck (clientId : jsstring) (now : Z)
    (requestCounts : gmap jsstring (list Z))
  : Completion * gmap jsstring (list Z) :=
  let windowStart := (now - RATE_LIMIT_WINDOW)%Z in
  let requestCounts :=
    match requestCounts !! clientId with
    | Some _ => requestCounts
    | None => <[clientId := []]> requestCounts
    end in
  let requests := default [] (requestCounts !! clientId) in
  let recentRequests := recent windowStart requests in
  if (MAX_REQUESTS_PER_WINDOW <=? length recentRequests)%nat
  then (Throw rate_limit_message, requestCounts)
  else (Normal, <[clientId := recentRequests ++ [now]]> requestCounts).

(** The filter of the timer's callback (line 205): it reads [Date.now()]
    anew for every element; [clock i] is the reading for the element at
    index [i]. *)
Fixpoint timer_filter (clock : nat -> Z) (i : nat) (requests : list Z)
  : list Z :=
  match requests with
  | [] => []
  | timestamp :: rest =>
      if (clock i - RATE_LIMIT_WINDOW <? timestamp)%Z
      then timestamp :: timer_filter clock (S i) rest
      else timer_filter clock (S i) rest
  end.

(** The callback that [rateLimitCheck] hands to [setTimeout]. *)
Definition rateLimit_timer (clientId : jsstring) (clock : nat -> Z)
    (requestCounts : gmap jsstring (list Z)) : gmap jsstring (list Z) :=
  match requestCounts !! clientId with
  | Some requests =>
      let updatedRequests := timer_filter clock 0 requests in
      if (length updatedRequests =? 0)%nat then delete clientId requestCounts
      else <[clientId := updatedRequests]> requestCounts
  | None => requestCounts
  end.

(** Successive calls of [rateLimitCheck] for one client, at the given
    times: their completions, and the map they leave. *)
Fixpoint rateLimit_calls (clientId : jsstring) (times : list Z)
    (requestCounts : gmap jsstring (list Z))
  : list Completion * gmap jsstring (list Z) :=
  match times with
  | [] => ([], requestCounts)
  | now :: rest =>
      let '(c, requestCounts) := rateLimitCheck clientId now requestCounts in
      let '(cs, requestCounts) := rateLimit_calls clientId rest requestCounts in
      (c :: cs, requestCounts)
  end.

(** [getClientId(req)]: [remoteAddress] is [req.connection.remoteAddress],
    [None] when it is [undefined]; [sha256_hex] stands for
    [crypto.createHash('sha256').update(_).digest('hex')]. *)
Definition getClientId (sha256_hex : jsstring -> jsstring)
    (headers : gmap jsstring jsstring) (remoteAddress : option jsstring)
  : jsstring :=
  let forwardedFor := header headers "x-forwarded-for" in
  let clientIp :=
    match forwardedFor with
    | JStr f =>
        if truthy forwardedFor
        then Some (trim (hd [] (split_char COMMA f)))
        else remoteAddress
    | _ => remoteAddress
    end in
  let userAgent :=
    match js_or (header headers "user-agent") (JStr (js "unknown")) with
    | JStr u => u
    | _ => []
    end in
  sha256_hex (match clientIp with
              | Some ip => ip
              | None => js "undefined"
              end ++ userAgent).

Inductive AuthResult : Type :=
  | Authenticated (clientId : jsstring)
  | AuthFailed (message : jsstring).

Definition authenticateRequest (sha256_hex : jsstring -> jsstring)
    (env : option jsstring) (headers : gmap jsstring jsstring)
    (remoteAddress : option jsstring) (now : Z)
    (requestCounts : gmap jsstring (list Z))
  : AuthResult * gmap jsstring (list Z) :=
  match validateApiKey env headers with
  | Throw msg => (AuthFailed msg, requestCounts)
  | Normal =>
      let clientId := getClientId sha256_hex headers remoteAddress in
      match rateLimitCheck clientId now requestCounts with
      | (Throw msg, requestCounts) => (AuthFailed msg, requestCounts)
      | (Normal, requestCounts) => (Authenticated clientId, requestCounts)
      end
  end.

(** ** [controlRobot] with its gate (index.js, lines 163-183) *)

Record Request : Type := mkRequest {
  req_method : jsstring;
  req_headers : gmap jsstring jsstring;
  req_remoteAddress : option jsstring;
  req_command : jsstring;
  req_params : option (gmap jsstring JSValue)
}.

(** [c.toUpperCase()] is the letter [target]: the letter itself, its
    lower case, and for I and S the dotless i and the long s. *)
Definition uppercases_to (target c : N) : bool :=
  (c =? target) || (c =? target + 32)
  || ((target =? 73) && (c =? 305)) || ((target =? 83) && (c =? 383)).

Fixpoint uppercases_to_word (word s : jsstring) : bool :=
  match word, s with
  | [], [] => true
  | target :: word', c :: s' => uppercases_to target c && uppercases_to_word word' s'
  | _, _ => false
  end.

(** [method.toUpperCase() === 'OPTIONS']: the test by which the [cors]
    middleware of lines 6-10 takes a request for a preflight. *)
Definition is_preflight (method : jsstring) : bool :=
  uppercases_to_word (js "OPTIONS") method.

(** The function registered at line 163.  [corsHandler] answers a preflight
    itself, with 204 and an empty body, and does not run its callback; for
    every other method it runs the callback, modelled from its first line
    to its [await]: the method check, the authentication, then the part
    modelled by [controlRobot_begin]. *)
Definition controlRobot_handler (sha256_hex : jsstring -> jsstring)
    (env : option jsstring) (req : Request) (now : Z)
    (requestCounts : gmap jsstring (list Z))
  : Progress * gmap jsstring (list Z) :=
  if is_preflight (req_method req)
  then (Replied 204 [], requestCounts)
  else if negb (str_eqb (req_method req) (js "POST"))
  then (Replied 405 (js "Method not allowed"), requestCounts)
  else
    match authenticateRequest sha256_hex env (req_headers req)
            (req_remoteAddress req) now requestCounts with
    | (AuthFailed msg, requestCounts) => (Replied 401 msg, requestCounts)
    | (Authenticated _, requestCounts) =>
        (controlRobot_begin (req_command req) (req_params req), requestCounts)
    end.
(** ** The example client (test-client.js, [MindstormsController])

    Each method hands [sendCommand] a command name and a parameter object;
    [sendCommand] posts [{ command, params }] as JSON. *)

(** The [params] object of a payload as the handler reads it from
    [req.body]. *)
Definition request_params (params : JSObject) : gmap jsstring JSValue :=
  list_to_map (JSON_stringify_members params).

(** [sendCommand(command, params = {})]: the payload of the POST. *)
Definition sendCommand (command : string) (params : JSObject)
  : jsstring * JSObject :=
  (js command, params).

(** A method [m(speed = s0, duration = 0)] that sends [{ speed, duration }]. *)
Definition movement_method (command : string) (speed_default : Z)
    (speed duration : JSValue) : jsstring * JSObject :=
  sendCommand command
    [(js "speed", default_arg speed (num speed_default));
     (js "duration", default_arg duration (num 0))].

Definition moveForward := movement_method "forward" 500.
Definition moveBackward := movement_method "backward" 500.
Definition turnLeft := movement_method "left" 300.
Definition turnRight := movement_method "right" 300.
Definition turretLeft := movement_method "turret_left" 200.
Definition turretRight := movement_method "turret_right" 200.

Definition movement_methods
  : list (JSValue -> JSValue -> jsstring * JSObject) :=
  [moveForward; moveBackward; turnLeft; turnRight; turretLeft; turretRight].

Definition joystickControl (l_left l_forward r_left r_forward : JSValue)
  : jsstring * JSObject :=
  sendCommand "joystick_control"
    [(js "l_left", default_arg l_left (num 0));
     (js "l_forward", default_arg l_forward (num 0));
     (js "r_left", default_arg r_left (num 0));
     (js "r_forward", default_arg r_forward (num 0))].

(** * Properties *)

(** ** Proof automation *)

(** Tests between string literals, and tables looked up at a literal, are
    closed terms: evaluate them in place. *)
Ltac js_eval :=
  repeat match goal with
    | |- context [str_eqb (js ?x) (js ?y)] =>
        let v := eval vm_compute in (str_eqb (js x) (js y)) in
        change (str_eqb (js x) (js y)) with v
    | |- context [array_includes ?l (js ?y)] =>
        let v := eval vm_compute in (array_includes l (js y)) in
        change (array_includes l (js y)) with v
    | |- context [spec_default_speed (js ?y)] =>
        let v := eval vm_compute in (spec_default_speed (js y)) in
        change (spec_default_speed (js y)) with v
    end.

Ltac js_eval_in H :=
  repeat match type of H with
    | context [str_eqb (js ?x) (js ?y)] =>
        let v := eval vm_compute in (str_eqb (js x) (js y)) in
        change (str_eqb (js x) (js y)) with v in H
    | context [array_includes ?l (js ?y)] =>
        let v := eval vm_compute in (array_includes l (js y)) in
        change (array_includes l (js y)) with v in H
    end.

Ltac record_eval :=
  unfold wire_record, build_command;
  cbn [action direction speed duration extraParams default_arg truthy not_null];
  repeat (progress (cbn [Object_assign foldl obj_set fst snd]; js_eval; cbv iota)).

Ltac in_table :=
  apply list_elem_of_In; vm_compute;
  repeat (first [left; reflexivity | right]).

Ltac row_default := right; by vm_compute.

(** Every listed name is [action] or passes the test [tac] of its row. *)
Ltac members_ok tac :=
  repeat (apply List.Forall_cons;
          [first [by left | right; split; [in_table | tac]]|]);
  apply List.Forall_nil.

(** ** Strings and lines *)

Section Strings.

Implicit Types s sub pre post : jsstring.

Lemma startsWith_spec s sub :
  startsWith s sub = true <-> exists post, s = sub ++ post.
Proof.
  revert s. induction sub as [|x sub IH]; intros s; simpl.
  - split; [intros _; by exists s | done].
  - destruct s as [|y s]; simpl.
    + split; [done | intros [post Hp]; discriminate].
    + rewrite andb_true_iff, N.eqb_eq, IH. split.
      * intros [-> [post ->]]. by exists post.
      * intros [post Hp]. injection Hp as -> ->. eauto.
Qed.

(** [includes] is substring containment. *)
Lemma includes_spec s sub :
  includes s sub = true <-> exists pre post, s = pre ++ sub ++ post.
Proof.
  induction s as [|c s IH].
  - simpl. rewrite orb_false_r, startsWith_spec. split.
    + intros [post Hp]. by exists [], post.
    + intros [pre [post Hp]]. destruct pre; [by exists post | discriminate].
  - cbn [includes]. rewrite orb_true_iff, startsWith_spec, IH. split.
    + intros [[post Hp] | [pre [post Hp]]].
      * by exists [], post.
      * exists (c :: pre), post. by rewrite Hp.
    + intros [pre [post Hp]]. destruct pre as [|d pre].
      * left. by exists post.
      * right. injection Hp as -> ->. eauto.
Qed.

Lemma str_eqb_eq s sub : str_eqb s sub = true <-> s = sub.
Proof.
  revert sub. induction s as [|x s IH]; intros [|y sub]; cbn; try done.
  rewrite andb_true_iff, N.eqb_eq, IH. split.
  - by intros [-> ->].
  - by intros [= -> ->].
Qed.

Lemma str_eqb_refl s : str_eqb s s = true.
Proof. by apply str_eqb_eq. Qed.

Lemma split_lf_nonempty s : split_lf s <> [].
Proof.
  destruct s as [|c s]; simpl; [done|].
  destruct (c =? LF); [done|]. by destruct (split_lf s).
Qed.

Lemma last_nonempty (l : list jsstring) :
  l <> [] -> last l = Some (List.last l []).
Proof.
  induction l as [|x l IH]; [done|]. intros _.
  destruct l as [|y l]; [done|]. by apply IH.
Qed.

Lemma List_last_app (l1 l2 : list jsstring) d :
  l2 <> [] -> List.last (l1 ++ l2) d = List.last l2 d.
Proof.
  intros Hne. induction l1 as [|x l1 IH]; [done|].
  cbn [app]. rewrite <- IH. cbn. destruct (l1 ++ l2) eqn:E; [|done].
  by destruct l1, l2.
Qed.

Lemma last_split_lf s : last (split_lf s) = Some (remainder s).
Proof. apply last_nonempty, split_lf_nonempty. Qed.

(** Splitting a stream that arrives in two parts: the complete lines of the
    first part, then the split of what the first part left unterminated
    followed by the second part. *)
Lemma split_lf_app s post :
  split_lf (s ++ post) = complete_lines s ++ split_lf (remainder s ++ post).
Proof.
  unfold complete_lines, remainder.
  induction s as [|c s IH]; [done|].
  cbn [app split_lf]. destruct (c =? LF) eqn:Hc.
  - rewrite IH. pose proof (split_lf_nonempty s) as Hne.
    destruct (split_lf s) as [|seg segs]; done.
  - rewrite IH. pose proof (split_lf_nonempty s) as Hne.
    destruct (split_lf s) as [|seg segs]; [done|].
    destruct segs as [|seg' segs].
    + cbn. rewrite Hc. by destruct (split_lf (seg ++ post)).
    + cbn. done.
Qed.

Lemma complete_lines_app s post :
  complete_lines (s ++ post)
  = complete_lines s ++ complete_lines (remainder s ++ post).
Proof.
  unfold complete_lines at 1. rewrite split_lf_app.
  rewrite removelast_app by apply split_lf_nonempty. done.
Qed.

Lemma remainder_app s post :
  remainder (s ++ post) = remainder (remainder s ++ post).
Proof.
  unfold remainder at 1. rewrite split_lf_app.
  by rewrite List_last_app by apply split_lf_nonempty.
Qed.

Lemma is_blank_truthy line : is_blank line = negb (truthy (JStr (trim line))).
Proof. unfold is_blank. simpl. by destruct (trim line). Qed.

End Strings.

(** ** [JSON.parse] on sample texts *)

Example parse_object :
  JSON.parse fragment_1 = None
  /\ JSON.parse (fragment_1 ++ js "ue}")
     = Some (JObj [(js "ok", JBool true)]).
Proof. by vm_compute. Qed.

Example parse_plain_text : JSON.parse (js "DONE") = None.
Proof. by vm_compute. Qed.

Example parse_nested :
  JSON.parse (js " [1, [2.5, []], {}, null, false] ")
  = Some (JArr [JNum (Finite 1);
                JArr [JNum (Finite (25 * / 10)); JArr []];
                JObj []; JNull; JBool false]).
Proof. by vm_compute. Qed.

Example parse_rejects_trailing_text :
  JSON.parse (js "{} {}") = None /\ JSON.parse (js "[1,]") = None
  /\ JSON.parse (js "01") = None.
Proof. by vm_compute. Qed.

(** ** The transport client *)

Section Transport.

Implicit Types (s : Session) (chunk line : jsstring) (lines : list jsstring).

Lemma find_app_first (f : jsstring -> bool) lines lines' :
  find f (lines ++ lines')
  = match find f lines with Some l => Some l | None => find f lines' end.
Proof.
  induction lines as [|l lines IH]; [done|]. cbn. by destruct (f l).
Qed.

Lemma find_first_split (f : jsstring -> bool) lines line :
  find f lines = Some line ->
  f line = true /\
  exists before after,
    lines = before ++ line :: after /\ Forall (fun l => f l = false) before.
Proof.
  induction lines as [|l lines IH]; [done|]. cbn.
  destruct (f l) eqn:Hl.
  - intros [= ->]. split; [done|]. by exists [], lines.
  - intros Hfind. destruct (IH Hfind) as [Hline (before & after & -> & Hall)].
    split; [done|]. exists (l :: before), after. split; [done|]. by constructor.
Qed.

Lemma find_skip_prefix (f : jsstring -> bool) before line after :
  Forall (fun l => f l = false) before -> f line = true ->
  find f (before ++ line :: after) = Some line.
Proof.
  intros Hall Hline. induction Hall as [|l before Hl _ IH]; cbn.
  - by rewrite Hline.
  - by rewrite Hl.
Qed.

(** The loop resolves with the response of the first candidate line. *)
Lemma process_messages_first lines :
  process_messages lines = option_map response_of (find is_candidate lines).
Proof.
  induction lines as [|l lines IH]; [done|].
  cbn [process_messages find]. unfold is_candidate.
  rewrite is_blank_truthy, negb_involutive.
  destruct (truthy (JStr (trim l))) eqn:Ht; cbn [negb andb]; [|done].
  destruct (is_greeting l); cbn [negb]; [done|].
  cbn [option_map]. unfold response_of.
  destruct (JSON.parse l); [done|].
  simpl in Ht. by destruct (trim l).
Qed.

Lemma on_data_buffer s chunk :
  buffer (on_data s chunk) = remainder (buffer s ++ chunk).
Proof.
  unfold on_data. rewrite last_split_lf. unfold js_or. simpl.
  destruct (remainder (buffer s ++ chunk)) eqn:E;
    by destruct (process_messages _).
Qed.

(** One 'data' event, in terms of the complete lines it makes available. *)
Lemma on_data_step s chunk :
  on_data s chunk =
  match option_map response_of (first_candidate (buffer s ++ chunk)) with
  | Some v =>
      mkSession (message s) (listening s) (remainder (buffer s ++ chunk))
                (written s) true (closed s) (settlements s ++ [Resolve v])
  | None =>
      mkSession (message s) (listening s) (remainder (buffer s ++ chunk))
                (written s) (destroyed s) (closed s) (settlements s)
  end.
Proof.
  pose proof (on_data_buffer s chunk) as Hb. revert Hb.
  unfold on_data, first_candidate. fold (complete_lines (buffer s ++ chunk)).
  rewrite <- process_messages_first.
  destruct (process_messages _); simpl; by intros ->.
Qed.

Lemma run_closed s events : closed s = true -> run s events = s.
Proof.
  intros Hc. induction events as [|e events IH]; [done|].
  unfold run in *. cbn [foldl]. unfold emit at 2. by rewrite Hc.
Qed.

Lemma emit_close s : closed s = false -> emit s OnClose = mark_closed s.
Proof. intros Hc. unfold emit. by rewrite Hc. Qed.

Lemma run_data_destroyed s chunks :
  destroyed s = true -> run s (map OnData chunks) = s.
Proof.
  intros Hd. induction chunks as [|c chunks IH]; [done|].
  unfold run in *. cbn [map foldl]. unfold emit at 2. rewrite Hd.
  by destruct (closed s).
Qed.

Lemma unterminated_remainder stream : unterminated (remainder stream).
Proof.
  unfold unterminated, remainder.
  induction stream as [|c stream IH]; [done|].
  cbn [split_lf]. destruct (c =? LF) eqn:Hc.
  - pose proof (split_lf_nonempty stream).
    by destruct (split_lf stream).
  - pose proof (split_lf_nonempty stream).
    destruct (split_lf stream) as [|seg segs] eqn:E; [done|].
    destruct segs as [|seg' segs]; [|done].
    cbn in *. rewrite Hc, IH. done.
Qed.

(** The chunks of a live session, against the stream they add up to. *)
Lemma run_data_stream chunks s :
  listening s = true -> destroyed s = false -> closed s = false ->
  unterminated (buffer s) ->
  let s' := run s (map OnData chunks) in
  message s' = message s /\ written s' = written s /\
  listening s' = true /\ closed s' = false /\
  match first_candidate (buffer s ++ concat chunks) with
  | Some line =>
      settlements s' = settlements s ++ [Resolve (response_of line)]
      /\ destroyed s' = true
  | None =>
      settlements s' = settlements s /\ destroyed s' = false
      /\ buffer s' = remainder (buffer s ++ concat chunks)
  end.
Proof.
  revert s. induction chunks as [|c chunks IH]; intros s Hl Hd Hc Hb.
  - cbn. rewrite app_nil_r. unfold first_candidate, complete_lines, remainder.
    rewrite Hb. by cbn.
  - assert (first_candidate (buffer s ++ concat (c :: chunks))
            = match first_candidate (buffer s ++ c) with
              | Some l => Some l
              | None => first_candidate (remainder (buffer s ++ c) ++ concat chunks)
              end) as ->.
    { cbn [concat]. rewrite app_assoc. unfold first_candidate.
      by rewrite complete_lines_app, find_app_first. }
    assert (remainder (buffer s ++ concat (c :: chunks))
            = remainder (remainder (buffer s ++ c) ++ concat chunks)) as ->.
    { cbn [concat]. by rewrite app_assoc, remainder_app. }
    assert (run s (map OnData (c :: chunks))
            = run (on_data s c) (map OnData chunks)) as ->.
    { unfold run. cbn [map foldl]. unfold emit at 2. by rewrite Hc, Hd, Hl. }
    pose proof (on_data_step s c) as Hstep.
    destruct (first_candidate (buffer s ++ c)) as [line|] eqn:Hfirst;
      cbn [option_map] in Hstep.
    + rewrite run_data_destroyed by (by rewrite Hstep).
      rewrite Hstep. by cbn.
    + assert (listening (on_data s c) = true) as Hl' by (by rewrite Hstep).
      assert (destroyed (on_data s c) = false) as Hd' by (by rewrite Hstep).
      assert (closed (on_data s c) = false) as Hc' by (by rewrite Hstep).
      assert (unterminated (buffer (on_data s c))) as Hb'.
      { rewrite Hstep. apply unterminated_remainder. }
      specialize (IH (on_data s c) Hl' Hd' Hc' Hb'). cbn zeta in IH.
      replace (message (on_data s c)) with (message s) in IH by (by rewrite Hstep).
      replace (written (on_data s c)) with (written s) in IH by (by rewrite Hstep).
      replace (settlements (on_data s c)) with (settlements s) in IH
        by (by rewrite Hstep).
      replace (buffer (on_data s c)) with (remainder (buffer s ++ c)) in IH
        by (by rewrite Hstep).
      exact IH.
Qed.

(** What a session looks like when the connection has just been set up. *)
Lemma emit_connected a d sp du (extra : JSObject) :
  let s := emit (sendCommandToRobot a d sp du extra) OnConnect in
  listening s = true /\ destroyed s = false /\ closed s = false
  /\ buffer s = [] /\ settlements s = []
  /\ written s = [message (sendCommandToRobot a d sp du extra)].
Proof. by cbn. Qed.

(** The data events that follow 'connect', against the stream. *)
Lemma run_connected_stream a d sp du (extra : JSObject) chunks :
  let s := run (sendCommandToRobot a d sp du extra) (OnConnect :: map OnData chunks) in
  closed s = false /\
  match first_candidate (concat chunks) with
  | Some line =>
      settlements s = [Resolve (response_of line)] /\ destroyed s = true
  | None => settlements s = [] /\ destroyed s = false
  end.
Proof.
  set (s1 := emit (sendCommandToRobot a d sp du extra) OnConnect).
  change (run (sendCommandToRobot a d sp du extra) (OnConnect :: map OnData chunks))
    with (run s1 (map OnData chunks)).
  destruct (run_data_stream chunks s1) as (_ & _ & _ & Hc & H); try done.
  cbn zeta. split; [done|].
  change (buffer s1) with (@nil N) in H. cbn [app] in H.
  destruct (first_candidate (concat chunks)).
  - by destruct H.
  - by destruct H as (? & ? & _).
Qed.

Lemma not_candidate_iff l :
  is_candidate l = false <-> is_blank l = true \/ is_greeting l = true.
Proof.
  unfold is_candidate.
  destruct (is_blank l), (is_greeting l); cbn; split; auto; intros [|]; done.
Qed.

Section Session.

Variables (a d sp du : JSValue) (extra : JSObject).

(** The session of one call [sendCommandToRobot(a, d, sp, du, extra)]. *)
Local Abbreviation s0 := (sendCommandToRobot a d sp du extra).

(** C3. Whatever the chunks, the session resolves with the response of the
    first complete line of the stream, in arrival order, that is neither
    blank nor a greeting: every complete line before it is blank or a
    greeting, the socket is destroyed and [resolve] has been called exactly
    once, so no later line is looked at.  Without such a line the session is
    pending and the socket is open. *)
Theorem first_candidate_line_is_the_response chunks :
  let s := run s0 (OnConnect :: map OnData chunks) in
  match first_candidate (concat chunks) with
  | Some line =>
      settlements s = [Resolve (response_of line)] /\ destroyed s = true
      /\ is_blank line = false /\ is_greeting line = false
      /\ exists before after,
           complete_lines (concat chunks) = before ++ line :: after
           /\ Forall (fun l => is_blank l = true \/ is_greeting l = true) before
  | None => settlements s = [] /\ destroyed s = false
  end.
Proof.
  destruct (run_connected_stream a d sp du extra chunks) as [_ H].
  cbn zeta.
  destruct (first_candidate (concat chunks)) as [line|] eqn:Hfirst; [|done].
  destruct H as [Hs Hd]. split; [done|]. split; [done|].
  apply find_first_split in Hfirst as [Hcand (before & after & Hlines & Hall)].
  unfold is_candidate in Hcand.
  apply andb_true_iff in Hcand as [Hb Hg].
  apply negb_true_iff in Hb, Hg. split; [done|]. split; [done|].
  exists before, after. split; [done|].
  eapply Forall_impl; [exact Hall|]. intros l. by apply not_candidate_iff.
Qed.

(** C4. The reply [{"ok":true}] split over two data events: after the first
    fragment nothing is settled and the fragment waits in the buffer; the
    second fragment completes the line, and the session has called
    [resolve] once, with the object [{ok: true}], and destroyed the
    socket. *)
Theorem split_json_reply_resolves_once :
  let s1 := run s0 [OnConnect; OnData fragment_1] in
  let s2 := emit s1 (OnData fragment_2) in
  split_lf fragment_1 = [fragment_1]
  /\ buffer s1 = fragment_1 /\ settlements s1 = [] /\ destroyed s1 = false
  /\ split_lf (buffer s1 ++ fragment_2) = [fragment_1 ++ js "ue}"; []]
  /\ buffer s2 = []
  /\ settlements s2 = [Resolve (JObj [(js "ok", JBool true)])]
  /\ destroyed s2 = true.
Proof. vm_compute. done. Qed.

(** C5. A complete line that is not blank, not a greeting and not JSON,
    reached after only blank and greeting lines, settles the session
    successfully with the object [{ success: true, response: text }], where
    [text] is the line trimmed, and the socket is destroyed. *)
Theorem unparsable_line_resolves_with_its_text chunks before line after :
  complete_lines (concat chunks) = before ++ line :: after ->
  Forall (fun l => is_blank l = true \/ is_greeting l = true) before ->
  is_blank line = false -> is_greeting line = false ->
  JSON.parse line = None ->
  let s := run s0 (OnConnect :: map OnData chunks) in
  settlements s
  = [Resolve (JObj [(js "success", JBool true); (js "response", JStr (trim line))])]
  /\ destroyed s = true.
Proof.
  intros Hlines Hbefore Hb Hg Hparse.
  destruct (run_connected_stream a d sp du extra chunks) as [_ H].
  cbn zeta.
  assert (first_candidate (concat chunks) = Some line) as Hfirst.
  { unfold first_candidate. rewrite Hlines. apply find_skip_prefix.
    - eapply Forall_impl; [exact Hbefore|]. intros l. by apply not_candidate_iff.
    - unfold is_candidate. by rewrite Hb, Hg. }
  rewrite Hfirst in H. unfold response_of in H. by rewrite Hparse in H.
Qed.

(** C10. Greeting detection is substring containment: a complete line that
    contains [Welcome] or [Send JSON] anywhere counts as a greeting, the loop
    passes over it whatever [JSON.parse] would make of it, and a session that
    has received only this line is still pending. *)
Theorem greeting_is_substring_containment line :
  (exists pre post, line = pre ++ js "Welcome" ++ post)
  \/ (exists pre post, line = pre ++ js "Send JSON" ++ post) ->
  is_greeting line = true
  /\ (forall rest, process_messages (line :: rest) = process_messages rest)
  /\ (forall chunks,
        complete_lines (concat chunks) = [line] ->
        settlements (run s0 (OnConnect :: map OnData chunks)) = []).
Proof.
  intros Hsub.
  assert (is_greeting line = true) as Hg.
  { unfold is_greeting. apply orb_true_iff.
    destruct Hsub as [H|H]; [left|right]; by apply includes_spec. }
  split; [done|]. split.
  - intros rest. cbn [process_messages]. rewrite Hg.
    by destruct (negb (truthy (JStr (trim line)))).
  - intros chunks Hlines.
    destruct (run_connected_stream a d sp du extra chunks) as [_ H].
    unfold first_candidate in H. rewrite Hlines in H.
    cbn [find] in H. unfold is_candidate in H. rewrite Hg in H.
    rewrite andb_false_r in H. by destruct H.
Qed.

(** Once the socket has closed no listener runs again: a session that was
    pending when the peer closed stays pending whatever follows. *)
Lemma close_keeps_session_pending chunks later :
  first_candidate (concat chunks) = None ->
  settlements (run s0 (OnConnect :: map OnData chunks ++ OnClose :: later)) = [].
Proof.
  intros Hnone.
  destruct (run_connected_stream a d sp du extra chunks) as [Hc H].
  rewrite Hnone in H. destruct H as [Hs Hd].
  change (OnConnect :: map OnData chunks ++ OnClose :: later)
    with ((OnConnect :: map OnData chunks) ++ OnClose :: later).
  unfold run in *. rewrite foldl_app.
  remember (foldl emit s0 (OnConnect :: map OnData chunks)) as s eqn:Es.
  cbn [foldl]. rewrite (emit_close s Hc). fold (run (mark_closed s) later).
  by rewrite run_closed.
Qed.

End Session.

(** The banner [Welcome] followed by the reply [{"ok":true}], in one chunk
    and in two: the banner is passed over and the reply is the response. *)
Example banner_then_reply_one_chunk :
  settlements
    (run (sendCommandToRobot (JStr (js "status")) JUndefined JUndefined
            JUndefined [])
         [OnConnect;
          OnData (js "Welcome" ++ [LF] ++ fragment_1 ++ fragment_2)])
  = [Resolve (JObj [(js "ok", JBool true)])].
Proof. by vm_compute. Qed.

Example banner_then_reply_two_chunks :
  settlements
    (run (sendCommandToRobot (JStr (js "status")) JUndefined JUndefined
            JUndefined [])
         [OnConnect; OnData (js "Welcome" ++ [LF]);
          OnData (fragment_1 ++ fragment_2)])
  = [Resolve (JObj [(js "ok", JBool true)])].
Proof. by vm_compute. Qed.

(** The line [DONE]: the session resolves with the text [DONE]. *)
Lemma unparsable_line_DONE :
  let s := run (sendCommandToRobot (JStr (js "status")) JUndefined JUndefined
                  JUndefined [])
               (OnConnect :: map OnData [js "DONE" ++ [LF]]) in
  settlements s
  = [Resolve (JObj [(js "success", JBool true);
                    (js "response", JStr (trim (js "DONE")))])]
  /\ destroyed s = true.
Proof.
  apply (unparsable_line_resolves_with_its_text
           (JStr (js "status")) JUndefined JUndefined JUndefined []
           [js "DONE" ++ [LF]] [] (js "DONE") []).
  - vm_compute. reflexivity.
  - constructor.
  - vm_compute. reflexivity.
  - vm_compute. reflexivity.
  - vm_compute. reflexivity.
Defined.

(** The reply [{"reply":"Welcome home"}]: valid JSON, and passed over as a
    greeting. *)
Lemma welcome_home_reply_is_discarded :
  JSON.parse welcome_home_reply
  = Some (JObj [(js "reply", JStr (js "Welcome home"))])
  /\ is_greeting welcome_home_reply = true
  /\ (forall rest,
        process_messages (welcome_home_reply :: rest) = process_messages rest)
  /\ (forall chunks,
        complete_lines (concat chunks) = [welcome_home_reply] ->
        settlements
          (run (sendCommandToRobot (JStr (js "status")) JUndefined JUndefined
                  JUndefined [])
               (OnConnect :: map OnData chunks)) = []).
Proof.
  split; [vm_compute; reflexivity|].
  apply (greeting_is_substring_containment
           (JStr (js "status")) JUndefined JUndefined JUndefined []
           welcome_home_reply).
  left.
  exists (js "{" ++ [DQUOTE] ++ js "reply" ++ [DQUOTE] ++ js ":" ++ [DQUOTE]),
         (js " home" ++ [DQUOTE] ++ js "}").
  vm_compute. reflexivity.
Defined.

End Transport.

(** ** Validation and translation *)

Section Bridge.

Implicit Types (command : jsstring) (params : gmap jsstring JSValue).

Lemma param_lookup params key v :
  params !! js key = Some v -> param params key = v.
Proof. unfold param. by intros ->. Qed.

Lemma param_missing params key :
  params !! js key = None -> param params key = JUndefined.
Proof. unfold param. by intros ->. Qed.

(** C1. The command [forward] with a supplied speed of 0 passes validation
    and is translated to a Wire Action Record whose speed is the default 500:
    [params.speed || 500] takes the supplied 0 for a missing parameter. *)
Theorem forward_speed_zero_is_sent_as_500 :
  let params : gmap jsstring JSValue := {[ js "speed" := num 0 ]} in
  params !! js "speed" = Some (num 0)
  /\ validateCommand (js "forward") params = Normal
  /\ (wire_record <$> translate (js "forward") params)
     = Some [(js "action", JStr (js "move")); (js "direction", JStr (js "forward"));
             (js "speed", num 500); (js "duration", num 0)].
Proof. vm_compute. done. Qed.

(** *** Numbers against the bounds *)

Lemma truthy_finite q : truthy (JNum (Finite q)) = true <-> ~ (q == 0)%Q.
Proof.
  cbn. rewrite negb_true_iff. split.
  - intros Hb Heq. apply Qeq_bool_iff in Heq. congruence.
  - intros Hne. destruct (Qeq_bool q 0) eqn:E; [|done].
    by apply Qeq_bool_iff in E.
Qed.

Lemma js_lt_finite q z :
  js_lt (JNum (Finite q)) z = true <-> (q < inject_Z z)%Q.
Proof.
  unfold js_lt. cbn. rewrite negb_true_iff. split.
  - intros Hb. apply Qnot_le_lt. intros Hle.
    apply Qle_bool_iff in Hle. congruence.
  - intros Hlt. destruct (Qle_bool (inject_Z z) q) eqn:E; [|done].
    apply Qle_bool_iff in E. by apply Qlt_not_le in Hlt.
Qed.

Lemma js_gt_finite q z :
  js_gt (JNum (Finite q)) z = true <-> (inject_Z z < q)%Q.
Proof.
  unfold js_gt. cbn. rewrite negb_true_iff. split.
  - intros Hb. apply Qnot_le_lt. intros Hle.
    apply Qle_bool_iff in Hle. congruence.
  - intros Hlt. destruct (Qle_bool q (inject_Z z)) eqn:E; [|done].
    apply Qle_bool_iff in E. by apply Qlt_not_le in Hlt.
Qed.



Lemma negative_duration_accepted params q :
  params !! js "duration" = Some (JNum (Finite q)) ->
  (q < 0)%Q -> duration_rejected params = false.
Proof.
  intros Hq Hneg. unfold duration_rejected.
  rewrite (param_lookup _ _ _ Hq).
  apply andb_false_iff. right.
  destruct (js_gt (JNum (Finite q)) 10) eqn:E; [|done].
  apply js_gt_finite in E.
  exfalso. apply (Qlt_irrefl q).
  eapply Qlt_trans; [exact Hneg|]. eapply Qlt_trans; [|exact E]. by compute.
Qed.

Lemma valid_command_nonempty command :
  array_includes validCommands command = true -> truthy (JStr command) = true.
Proof. by destruct command. Qed.


(** *** The records the translation builds *)

Lemma js_or_num x n :
  default_arg (js_or x (num n)) JNull = js_or x (num n)
  /\ not_null (js_or x (num n)) = true
  /\ not_undefined (js_or x (num n)) = true.
Proof. unfold js_or. destruct (truthy x) eqn:E; [by destruct x|done]. Qed.

(** The record of a movement or turret command: always the four fields. *)
Lemma wire_record_movement act dir n params :
  truthy (JStr (js dir)) = true ->
  wire_record (movement act dir n params)
  = [(js "action", JStr (js act)); (js "direction", JStr (js dir));
     (js "speed", js_or (param params "speed") (num n));
     (js "duration", js_or (param params "duration") (num 0))].
Proof.
  intros Hdir. unfold wire_record, movement, build_command.
  cbn [action direction speed duration extraParams default_arg].
  destruct (js_or_num (param params "speed") n) as (-> & -> & _).
  destruct (js_or_num (param params "duration") 0) as (-> & -> & _).
  rewrite Hdir. by cbn.
Qed.

Lemma wire_record_plain act :
  wire_record (plain act) = [(js "action", JStr (js act))].
Proof. done. Qed.

(** The [switch] by cases: a movement row, or one of the other rows. *)
Lemma translate_movement command params :
  array_includes movement_commands command = true ->
  exists act dir,
    truthy (JStr (js dir)) = true
    /\ translate command params
       = Some (movement act dir (spec_default_speed command) params).
Proof.
  intros Hin. unfold array_includes, movement_commands in Hin.
  cbn [existsb] in Hin.
  repeat (apply orb_true_iff in Hin as [Hin|Hin];
          [apply str_eqb_eq in Hin; subst command; eexists _, _;
           split; [|unfold translate; js_eval; reflexivity]; reflexivity|]).
  done.
Qed.

(** What a movement or turret record carries: the supplied speed and
    duration when they are truthy, the row's default in every other case. *)
Lemma movement_record_values command params :
  array_includes movement_commands command = true ->
  exists t,
    translate command params = Some t
    /\ obj_get (wire_record t) (js "speed")
       = js_or (param params "speed") (num (spec_default_speed command))
    /\ obj_get (wire_record t) (js "duration")
       = js_or (param params "duration") (num 0).
Proof.
  intros Hmove.
  destruct (translate_movement command params Hmove) as (act & dir & Hdir & Ht).
  eexists. split; [exact Ht|].
  rewrite wire_record_movement by done. split; by vm_compute.
Qed.

(** C9. A supplied negative duration is not rejected: the duration check
    does not fire, validation gives the verdict it gives without the
    duration, never the duration message, and the negative value itself is
    what a movement, turret or beep record carries to the wire. *)
Theorem negative_duration_passes_validation command params q :
  params !! js "duration" = Some (JNum (Finite q)) -> (q < 0)%Q ->
  duration_rejected params = false
  /\ validateCommand command params
     = validateCommand command (delete (js "duration") params)
  /\ validateCommand command params <> Throw duration_message
  /\ (forall t,
        translate command params = Some t ->
        array_includes movement_commands command = true
        \/ str_eqb command (js "beep") = true ->
        obj_get (wire_record t) (js "duration") = JNum (Finite q)).
Proof.
  intros Hq Hneg.
  pose proof (negative_duration_accepted params q Hq Hneg) as Hacc.
  split; [done|].
  assert (validateCommand command params
          = validateCommand command (delete (js "duration") params)) as Heq.
  { unfold validateCommand, speed_rejected. rewrite Hacc.
    unfold duration_rejected, param.
    rewrite lookup_delete_eq, !lookup_delete_ne by done. done. }
  split; [done|]. split.
  - unfold validateCommand. rewrite Hacc.
    repeat match goal with
           | |- context [if ?b then _ else _] => destruct b
           end; done.
  - intros t Ht [Hmove|Hbeep].
    + destruct (translate_movement command params Hmove) as (act & dir & Hdir & Ht').
      rewrite Ht' in Ht. injection Ht as <-.
      rewrite wire_record_movement by done.
      rewrite (param_lookup _ _ _ Hq). unfold js_or.
      assert (truthy (JNum (Finite q)) = true) as ->; [|done].
      apply truthy_finite. intros Hz. rewrite Hz in Hneg. revert Hneg. by compute.
    + apply str_eqb_eq in Hbeep. subst command.
      unfold translate in Ht. js_eval_in Ht. cbv iota in Ht.
      rewrite (param_lookup _ _ _ Hq) in Ht.
      rewrite orb_true_r in Ht. injection Ht as <-.
      unfold wire_record. cbn [action direction speed duration extraParams].
      by destruct (not_undefined (param params "frequency")).
Qed.

(** C8 (as amended). For [speak], when the speed and duration checks do not
    fire: a missing text, a text that is not a string and the empty string
    are refused with the "required" message; a non-empty string longer than
    500 is refused with the "length" message; every non-empty string of
    length at most 500 is accepted, and the handler goes on to open the
    connection. *)
Theorem speak_text_validation params :
  speed_rejected params = false -> duration_rejected params = false ->
  validateCommand (js "speak") params
  = match params !! js "text" with
    | Some (JStr (c :: text)) =>
        if (500 <? length (c :: text))%nat then Throw text_length_message
        else Normal
    | _ => Throw text_required_message
    end
  /\ (validateCommand (js "speak") params = Normal ->
      connects (controlRobot_begin (js "speak") (Some params)) = true).
Proof.
  intros Hs Hd. split.
  - unfold validateCommand. rewrite Hs, Hd.
    change (array_includes validCommands (js "speak")) with true.
    change (str_eqb (js "speak") (js "speak")) with true.
    cbn [negb]. unfold param.
    destruct (params !! js "text") as [[| | | |[|c text]| |]|]; try done;
      unfold default; cbn [from_option id is_string negb];
      by rewrite orb_true_r.
  - intros Hv. unfold controlRobot_begin.
    change (default ∅ (Some params)) with params. by rewrite Hv.
Qed.

(** C8, the claim as stated fails: the empty string is a supplied string of
    length at most 500, and [speak] refuses it. *)
Lemma speak_empty_text_is_rejected :
  let params : gmap jsstring JSValue := {[ js "text" := JStr [] ]} in
  params !! js "text" = Some (JStr [])
  /\ (length (@nil N) <= 500)%nat
  /\ validateCommand (js "speak") params = Throw text_required_message
  /\ connects (controlRobot_begin (js "speak") (Some params)) = false.
Proof.
  cbv zeta. split; [by vm_compute|]. split; [cbn [length]; lia|].
  split; by vm_compute.
Qed.

(** C2. A handler that has opened its connection, whose peer closes before
    any complete line other than blank and greeting lines has arrived, has
    sent nothing to the caller, and sends nothing whatever the socket does
    afterwards: the 'close' listener settles nothing. *)
Theorem peer_close_leaves_caller_without_response command
    (body_params : option (gmap jsstring JSValue)) chunks later :
  connects (controlRobot_begin command body_params) = true ->
  first_candidate (concat chunks) = None ->
  controlRobot command body_params
    (OnConnect :: map OnData chunks ++ OnClose :: later)
  = None.
Proof.
  intros Hconn Hnone. unfold controlRobot.
  destruct (controlRobot_begin command body_params) as [|session] eqn:Hbegin; [done|].
  assert (exists a d sp du extra, session = sendCommandToRobot a d sp du extra)
    as (a & d & sp & du & extra & ->).
  { unfold controlRobot_begin in Hbegin.
    destruct (negb _); [done|]. destruct (validateCommand _ _); [|done].
    destruct (translate _ _) as [t|]; [|done].
    injection Hbegin as <-. by eauto 6. }
  unfold outcome. by rewrite close_keeps_session_pending.
Qed.

Lemma optional_member_param params key :
  optional_member params (js key)
  = if not_undefined (param params key)
    then [(js key, json_value (param params key))] else [].
Proof.
  unfold optional_member, param. by destruct (params !! js key) as [v|].
Qed.

Lemma supplied_param params key :
  not_undefined (param params key) = true -> supplied params (js key).
Proof.
  unfold supplied, param. destruct (params !! js key) as [v|]; [|done].
  intros Hv. exists v. split; [done|]. by intros ->.
Qed.

(** C7, the claim as stated fails: [beep] with the frequency [1e999], which
    [JSON.parse] reads as Infinity, and the duration [null] passes
    validation, and the message written to the robot on connection has
    both members, each as [null]. *)
Lemma beep_members_are_written_as_null :
  let params : gmap jsstring JSValue :=
    <[ js "frequency" := JNum (Infinity false) ]> {[ js "duration" := JNull ]} in
  supplied params (js "frequency") /\ supplied params (js "duration")
  /\ validateCommand (js "beep") params = Normal
  /\ exists session,
      controlRobot_begin (js "beep") (Some params) = Awaiting session
      /\ written (emit session OnConnect)
         = [JsonLine [(js "action", JStr (js "beep"));
                      (js "frequency", JNull); (js "duration", JNull)]].
Proof.
  cbv zeta. split; [|split].
  - exists (JNum (Infinity false)). split; [by vm_compute|done].
  - exists JNull. split; [by vm_compute|done].
  - split; [by vm_compute|]. eexists. split; by vm_compute.
Qed.

(** C7 (as amended). The members of the serialized wire message.  Besides
    [action], a member is one that the command's row of the table lists,
    and either the caller supplied it (with any value, [null] included) or
    the row defines its value.  For the parameterless commands the message
    has the single member [action].  For [beep] the message has [action],
    then [frequency] and [duration] exactly when the caller supplied them,
    each with the value [JSON.stringify] writes for the supplied one (so a
    supplied [null] or infinite number is written as [null], an empty
    string as the empty string), and no member in the place of one that was
    not supplied. *)
Theorem wire_message_members command params t :
  translate command params = Some t ->
  let members := JSON_stringify_members (wire_record t) in
  Forall (fun f =>
            f = js "action"
            \/ (f ∈ spec_table_fields command
                /\ (supplied params f \/ spec_table_default command f = true)))
         (wire_fields (wire_record t))
  /\ (array_includes parameterless_commands command = true ->
      members = [(js "action", action t)])
  /\ (str_eqb command (js "beep") = true ->
      members = (js "action", JStr (js "beep"))
                :: optional_member params (js "frequency")
                ++ optional_member params (js "duration")).
Proof.
  intros Ht. cbv zeta. unfold wire_fields.
  destruct (array_includes movement_commands command) eqn:Hmove.
  { destruct (translate_movement command params Hmove) as (act & dir & Hdir & Ht').
    rewrite Ht' in Ht. injection Ht as <-.
    rewrite wire_record_movement by done.
    unfold JSON_stringify_members. cbn [List.filter snd not_undefined].
    destruct (js_or_num (param params "speed") (spec_default_speed command))
      as (_ & _ & ->).
    destruct (js_or_num (param params "duration") 0) as (_ & _ & ->).
    cbn [map fmap list_fmap fst].
    unfold array_includes, movement_commands in Hmove. cbn [existsb] in Hmove.
    repeat (apply orb_true_iff in Hmove as [Hmove|Hmove];
            [apply str_eqb_eq in Hmove; subst command;
             split; [|split; intros Habs; by vm_compute in Habs];
             members_ok row_default|]).
    done. }
  unfold translate in Ht.
  repeat match type of Ht with
    | (if str_eqb command ?l then _ else _) = _ =>
        let E := fresh "E" in
        destruct (str_eqb command l) eqn:E;
        [apply str_eqb_eq in E; subst command;
         first [by vm_compute in Hmove | injection Ht as <-] | clear E]
    end; [..|done].
  all: try (rewrite wire_record_plain;
            cbn [JSON_stringify_members List.filter map snd not_undefined
                 json_value fmap list_fmap fst];
            split; [members_ok idtac|];
            split; [done | intros Habs; by vm_compute in Habs]).
  - (* joystick_control *)
    record_eval.
    unfold JSON_stringify_members. cbn [List.filter snd not_undefined].
    destruct (js_or_num (param params "l_left") 0) as (_ & _ & ->).
    destruct (js_or_num (param params "l_forward") 0) as (_ & _ & ->).
    destruct (js_or_num (param params "r_left") 0) as (_ & _ & ->).
    destruct (js_or_num (param params "r_forward") 0) as (_ & _ & ->).
    cbn [map fmap list_fmap fst].
    split; [|split; intros Habs; by vm_compute in Habs].
    members_ok row_default.
  - (* speak *)
    record_eval.
    unfold JSON_stringify_members. cbn [List.filter snd not_undefined].
    split; [|split; intros Habs; by vm_compute in Habs].
    destruct (not_undefined (param params "text")) eqn:Htext;
      cbn [map fmap list_fmap fst];
      members_ok ltac:(left; by apply supplied_param).
  - (* beep *)
    rewrite !optional_member_param.
    destruct (not_undefined (param params "frequency")) eqn:Hf;
      destruct (not_undefined (param params "duration")) eqn:Hd;
      cbn [orb]; record_eval;
      unfold JSON_stringify_members; cbn [List.filter snd not_undefined];
      rewrite ?Hf, ?Hd; cbn [map fmap list_fmap fst snd json_value app];
      (split; [|split; [intros Habs; by vm_compute in Habs|done]]);
      members_ok ltac:(left; by apply supplied_param).
Qed.

(** The command [stop] when the robot sends its banner and hangs up. *)
Lemma stop_banner_then_close_gets_no_response :
  connects (controlRobot_begin (js "stop") None) = true
  /\ first_candidate (concat [js "Welcome to EV3" ++ [LF]]) = None
  /\ controlRobot (js "stop") None
       (OnConnect :: map OnData [js "Welcome to EV3" ++ [LF]] ++ OnClose :: [OnTimeout])
     = None.
Proof.
  split; [vm_compute; reflexivity|]. split; [vm_compute; reflexivity|].
  apply (peer_close_leaves_caller_without_response
           (js "stop") None [js "Welcome to EV3" ++ [LF]] [OnTimeout]).
  - vm_compute. reflexivity.
  - vm_compute. reflexivity.
Defined.


(** [beep] with a frequency and no duration. *)
Lemma beep_with_frequency_members :
  let params : gmap jsstring JSValue := {[ js "frequency" := num 440 ]} in
  let t := mkTranslation (JStr (js "beep")) JUndefined JUndefined JUndefined
             [(js "frequency", num 440)] in
  let members := JSON_stringify_members (wire_record t) in
  Forall (fun f =>
            f = js "action"
            \/ (f ∈ spec_table_fields (js "beep")
                /\ (supplied params f
                    \/ spec_table_default (js "beep") f = true)))
         (wire_fields (wire_record t))
  /\ (array_includes parameterless_commands (js "beep") = true ->
      members = [(js "action", action t)])
  /\ (str_eqb (js "beep") (js "beep") = true ->
      members = (js "action", JStr (js "beep"))
                :: optional_member params (js "frequency")
                ++ optional_member params (js "duration")).
Proof.
  apply (wire_message_members (js "beep") {[ js "frequency" := num 440 ]}
           (mkTranslation (JStr (js "beep")) JUndefined JUndefined JUndefined
              [(js "frequency", num 440)])).
  vm_compute. reflexivity.
Defined.

(** [speak] with a text of 500 code units. *)
Lemma speak_500_is_accepted :
  let params : gmap jsstring JSValue :=
    {[ js "text" := JStr (replicate 500 97) ]} in
  validateCommand (js "speak") params
  = match params !! js "text" with
    | Some (JStr (c :: text)) =>
        if (500 <? length (c :: text))%nat then Throw text_length_message
        else Normal
    | _ => Throw text_required_message
    end
  /\ (validateCommand (js "speak") params = Normal ->
      connects (controlRobot_begin (js "speak") (Some params)) = true).
Proof.
  apply (speak_text_validation {[ js "text" := JStr (replicate 500 97) ]}).
  - vm_compute. reflexivity.
  - vm_compute. reflexivity.
Defined.

(** [forward] with duration -5. *)
Lemma forward_duration_minus_5_passes :
  let params : gmap jsstring JSValue := {[ js "duration" := num (-5) ]} in
  duration_rejected params = false
  /\ validateCommand (js "forward") params
     = validateCommand (js "forward") (delete (js "duration") params)
  /\ validateCommand (js "forward") params <> Throw duration_message
  /\ (forall t,
        translate (js "forward") params = Some t ->
        array_includes movement_commands (js "forward") = true
        \/ str_eqb (js "forward") (js "beep") = true ->
        obj_get (wire_record t) (js "duration") = JNum (Finite (inject_Z (-5)))).
Proof.
  apply (negative_duration_passes_validation
           (js "forward") {[ js "duration" := num (-5) ]} (inject_Z (-5))).
  - vm_compute. reflexivity.
  - reflexivity.
Defined.

End Bridge.

(** ** The transport client under arbitrary socket events *)

Section SessionInvariants.

Implicit Types (s : Session) (e : Event) (events : list Event).

Lemma unterminated_iff (b : jsstring) : unterminated b <-> LF ∉ b.
Proof.
  unfold unterminated. induction b as [|c b IH]; cbn [split_lf].
  - split; [intros _; apply not_elem_of_nil | done].
  - rewrite not_elem_of_cons. destruct (c =? LF) eqn:Hc.
    + apply N.eqb_eq in Hc. split; [done | intros [Hne _]; congruence].
    + apply N.eqb_neq in Hc. pose proof (split_lf_nonempty b) as Hne.
      destruct (split_lf b) as [|seg segs]; [done|]. split.
      * intros [= -> ->]. split; [congruence|]. by apply IH.
      * intros [_ Hb]. apply IH in Hb. by injection Hb as -> ->.
Qed.

Lemma emit_invariant msg s e :
  session_invariant msg s -> session_invariant msg (emit s e).
Proof.
  intros Hinv. pose proof Hinv as (Hm & Hw & Hb & Hs & Hlen & Hcl).
  unfold emit. destruct (closed s) eqn:Hclosed; [done|].
  destruct e as [|chunk| |err|].
  - destruct (destroyed s) eqn:Hd; cbn [orb]; [done|].
    destruct (listening s) eqn:Hl; [done|].
    unfold on_connect, session_invariant. cbn.
    rewrite Hm, Hd, Hclosed. split_and!; try done. by rewrite Hw.
  - destruct (destroyed s) eqn:Hd; cbn [orb]; [done|].
    destruct (listening s) eqn:Hl; cbn [negb]; [|done].
    rewrite on_data_step. specialize (Hs eq_refl).
    destruct (option_map response_of _); unfold session_invariant; cbn;
      rewrite Hw, Hm, Hl, Hs, ?Hd, ?Hclosed;
      split_and!; try done; try apply unterminated_remainder; cbn; lia.
  - destruct (destroyed s) eqn:Hd; [done|].
    specialize (Hs eq_refl). unfold on_timeout, session_invariant. cbn.
    rewrite Hs. by split_and!.
  - destruct (destroyed s) eqn:Hd; [done|].
    specialize (Hs eq_refl). unfold on_error, mark_destroyed, session_invariant.
    cbn. rewrite Hs. by split_and!.
  - unfold on_close, mark_closed, session_invariant. cbn. by split_and!.
Qed.

Lemma run_invariant msg s events :
  session_invariant msg s -> session_invariant msg (run s events).
Proof.
  revert s. induction events as [|e events IH]; intros s Hs; [done|].
  apply (IH (emit s e)). by apply emit_invariant.
Qed.

Lemma initial_invariant a d sp du (extra : JSObject) :
  session_invariant (message (sendCommandToRobot a d sp du extra))
                    (sendCommandToRobot a d sp du extra).
Proof. unfold session_invariant. split_and!; try done. cbn. lia. Qed.

Lemma run_app s events events' :
  run s (events ++ events') = run (run s events) events'.
Proof. apply foldl_app. Qed.

Section OneSession.

Variables (a d sp du : JSValue) (extra : JSObject).

Local Abbreviation s0 := (sendCommandToRobot a d sp du extra).

(** X1. Whatever the socket does, [resolve] and [reject] together are
    called at most once in a session, and a session that has settled has
    destroyed its socket. *)
Theorem session_settles_at_most_once events :
  (length (settlements (run s0 events)) <= 1)%nat
  /\ (settlements (run s0 events) <> [] -> destroyed (run s0 events) = true).
Proof.
  destruct (run_invariant _ _ events (initial_invariant a d sp du extra))
    as (_ & _ & _ & Hs & Hlen & _).
  split; [done|]. intros Hne.
  destruct (destroyed (run s0 events)); [done|]. by destruct Hne; apply Hs.
Qed.

(** X3. The message is written to the socket exactly once, when the
    connection is established, and never before: nothing is written while no
    'connect' event has been delivered, and at any time the writes are either
    none or the single framed message of the command. *)
Theorem message_written_once_on_connect events :
  (OnConnect ∉ events -> written (run s0 events) = [])
  /\ (written (run s0 events) = []
      \/ written (run s0 events)
         = [JsonLine (JSON_stringify_members
                        (build_command a d sp du extra))]).
Proof.
  destruct (run_invariant _ _ events (initial_invariant a d sp du extra))
    as (_ & Hw & _).
  split.
  - intros Hno. rewrite Hw.
    assert (forall s, listening s = false -> OnConnect ∉ events ->
                      listening (run s events) = false) as Hl.
    { clear. induction events as [|e events IH]; intros s Hl Hno; [done|].
      apply not_elem_of_cons in Hno as [Hne Hno].
      apply (IH (emit s e)); [|done]. unfold emit.
      destruct (closed s); [done|]. destruct e as [|chunk| |err|]; try done.
      - by rewrite Hl, orb_true_r.
      - by destruct (destroyed s).
      - by destruct (destroyed s). }
    by rewrite Hl.
  - rewrite Hw. destruct (listening (run s0 events)); [by right | by left].
Qed.

(** X4. The buffer never holds a line feed: after every event it is the
    text received since the last line terminator. *)
Theorem buffer_never_holds_a_line_feed events :
  LF ∉ buffer (run s0 events).
Proof.
  apply unterminated_iff.
  by destruct (run_invariant _ _ events (initial_invariant a d sp du extra))
    as (_ & _ & Hb & _).
Qed.

End OneSession.

End SessionInvariants.
(** ** The handler against the socket: timeout, error and reply *)

Section Outcomes.

Implicit Types (s : Session) (events later : list Event)
  (command : jsstring) (body_params : option (gmap jsstring JSValue)).

Lemma run_destroyed s events :
  destroyed s = true ->
  settlements (run s events) = settlements s.
Proof.
  revert s. induction events as [|e events IH]; intros s Hd; [done|].
  change (run s (e :: events)) with (run (emit s e) events).
  assert (destroyed (emit s e) = true /\ settlements (emit s e) = settlements s)
    as [Hd' Hs'].
  { unfold emit. destruct (closed s); [done|].
    destruct e as [|chunk| |err|]; by rewrite ?Hd. }
  by rewrite IH.
Qed.

Lemma awaited_session command body_params :
  connects (controlRobot_begin command body_params) = true ->
  exists a d sp du extra,
    controlRobot_begin command body_params
    = Awaiting (sendCommandToRobot a d sp du extra).
Proof.
  unfold controlRobot_begin.
  destruct (negb _); [done|]. destruct (validateCommand _ _); [|done].
  destruct (translate _ _) as [t|]; [|done]. by eauto 6.
Qed.

(** A pending, open session: the start of a call, or a connected session
    that has received only blank and greeting lines so far. *)
Lemma pending_prefix a d sp du (extra : JSObject) chunks (connected : bool) :
  first_candidate (concat chunks) = None ->
  let s := run (sendCommandToRobot a d sp du extra)
               (if connected then OnConnect :: map OnData chunks else []) in
  settlements s = [] /\ destroyed s = false /\ closed s = false.
Proof.
  intros Hnone. destruct connected; [|done].
  destruct (run_connected_stream a d sp du extra chunks) as [Hc H].
  rewrite Hnone in H. by destruct H.
Qed.

Lemma settle_then_later s e later x :
  settlements s = [] -> destroyed s = false -> closed s = false ->
  settlements (emit s e) = [x] -> destroyed (emit s e) = true ->
  outcome (run s (e :: later)) = Some x.
Proof.
  intros _ _ _ Hx Hd. unfold outcome.
  change (run s (e :: later)) with (run (emit s e) later).
  by rewrite run_destroyed, Hx.
Qed.

(** X5. When the socket times out before a response line has been accepted,
    during the connection attempt or after it, the caller receives the
    failure 500 [Connection timeout], whatever the socket does later. *)
Theorem timeout_answers_connection_timeout
    command body_params chunks (connected : bool) later :
  connects (controlRobot_begin command body_params) = true ->
  first_candidate (concat chunks) = None ->
  controlRobot command body_params
    ((if connected then OnConnect :: map OnData chunks else [])
     ++ OnTimeout :: later)
  = Some (Failure 500 (js "Connection timeout")).
Proof.
  intros Hconn Hnone.
  destruct (awaited_session _ _ Hconn) as (a & d & sp & du & extra & Hbegin).
  unfold controlRobot. rewrite Hbegin, run_app.
  destruct (pending_prefix a d sp du extra chunks connected Hnone)
    as (Hs & Hd & Hc).
  rewrite (settle_then_later _ _ _ (Reject (js "Connection timeout")));
    [done|done|done|done| |].
  - unfold emit. rewrite Hc, Hd. unfold on_timeout. cbn. by rewrite Hs.
  - unfold emit. by rewrite Hc, Hd.
Qed.

(** X6. When the socket reports an error before a response line has been
    accepted (a refused connection, a reset), the caller receives the failure
    500 [Connection error: ] followed by the socket's message. *)
Theorem socket_error_answers_connection_error
    command body_params chunks (connected : bool) err later :
  connects (controlRobot_begin command body_params) = true ->
  first_candidate (concat chunks) = None ->
  controlRobot command body_params
    ((if connected then OnConnect :: map OnData chunks else [])
     ++ OnError err :: later)
  = Some (Failure 500 (js "Connection error: " ++ err)).
Proof.
  intros Hconn Hnone.
  destruct (awaited_session _ _ Hconn) as (a & d & sp & du & extra & Hbegin).
  unfold controlRobot. rewrite Hbegin, run_app.
  destruct (pending_prefix a d sp du extra chunks connected Hnone)
    as (Hs & Hd & Hc).
  rewrite (settle_then_later _ _ _ (Reject (js "Connection error: " ++ err)));
    [done|done|done|done| |].
  - unfold emit. rewrite Hc, Hd. unfold on_error, mark_destroyed. cbn.
    by rewrite Hs.
  - unfold emit. by rewrite Hc, Hd.
Qed.

(** X7. When the handler has opened its connection and the stream holds a
    complete line that is neither blank nor a greeting, the caller receives
    200 with the response of the first such line as [result], whatever the
    socket does afterwards. *)
Theorem first_reply_answers_success
    command body_params chunks line later :
  connects (controlRobot_begin command body_params) = true ->
  first_candidate (concat chunks) = Some line ->
  controlRobot command body_params (OnConnect :: map OnData chunks ++ later)
  = Some (Success command (response_of line)).
Proof.
  intros Hconn Hfirst.
  destruct (awaited_session _ _ Hconn) as (a & d & sp & du & extra & Hbegin).
  unfold controlRobot. rewrite Hbegin.
  change (OnConnect :: map OnData chunks ++ later)
    with ((OnConnect :: map OnData chunks) ++ later).
  rewrite run_app.
  destruct (run_connected_stream a d sp du extra chunks) as [Hc H].
  rewrite Hfirst in H. destruct H as [Hs Hd].
  unfold outcome. by rewrite run_destroyed, Hs.
Qed.

(** [get_status] when the connection is refused, when the robot stays
    silent, and when it answers after its banner. *)
Lemma get_status_timeout :
  controlRobot (js "get_status") None
    ((if true then OnConnect :: map OnData [js "Welcome" ++ [LF]] else [])
     ++ OnTimeout :: [OnClose])
  = Some (Failure 500 (js "Connection timeout")).
Proof.
  apply (timeout_answers_connection_timeout (js "get_status") None
           [js "Welcome" ++ [LF]] true [OnClose]).
  - vm_compute. reflexivity.
  - vm_compute. reflexivity.
Defined.

Lemma get_status_refused :
  controlRobot (js "get_status") None
    ((if false then OnConnect :: map OnData [] else [])
     ++ OnError (js "connect ECONNREFUSED") :: [OnClose])
  = Some (Failure 500 (js "Connection error: " ++ js "connect ECONNREFUSED")).
Proof.
  apply (socket_error_answers_connection_error (js "get_status") None
           [] false (js "connect ECONNREFUSED") [OnClose]).
  - vm_compute. reflexivity.
  - vm_compute. reflexivity.
Defined.

Lemma get_status_reply :
  controlRobot (js "get_status") None
    (OnConnect :: map OnData [js "Welcome" ++ [LF]; fragment_1; fragment_2]
     ++ [OnClose])
  = Some (Success (js "get_status") (response_of (fragment_1 ++ js "ue}"))).
Proof.
  apply (first_reply_answers_success (js "get_status") None
           [js "Welcome" ++ [LF]; fragment_1; fragment_2]
           (fragment_1 ++ js "ue}") [OnClose]).
  - vm_compute. reflexivity.
  - vm_compute. reflexivity.
Defined.

End Outcomes.
(** ** Validation and translation: the remaining rows and edges *)

Section Rows.

Implicit Types (command : jsstring) (params : gmap jsstring JSValue).

(** The [switch] row by row: [Ht] becomes the translation of a literal
    command, once per [case]. *)
Ltac translate_cases Ht :=
  unfold translate in Ht;
  repeat match type of Ht with
    | (if str_eqb ?c ?l then _ else _) = _ =>
        let E := fresh "E" in
        destruct (str_eqb c l) eqn:E;
        [apply str_eqb_eq in E; subst c | clear E]
    end;
  [..|discriminate Ht].

Ltac translate_literal H :=
  unfold translate in H; js_eval_in H; cbv iota in H.

(** The [switch] has a [case] for exactly the commands of [validCommands]. *)
Lemma translate_defined_iff command params :
  is_Some (translate command params)
  <-> array_includes validCommands command = true.
Proof.
  split.
  - intros [t Ht]. translate_cases Ht; by vm_compute.
  - intros Hvalid. unfold array_includes, validCommands in Hvalid.
    cbn [existsb] in Hvalid.
    repeat (apply orb_true_iff in Hvalid as [Hvalid|Hvalid];
            [apply str_eqb_eq in Hvalid; subst command;
             unfold translate; js_eval; by eexists|]).
    done.
Qed.

Lemma validated_is_valid command params :
  validateCommand command params = Normal ->
  array_includes validCommands command = true.
Proof.
  unfold validateCommand.
  by destruct (array_includes validCommands command).
Qed.

Lemma validated_has_session command params :
  validateCommand command params = Normal ->
  exists t,
    translate command params = Some t
    /\ controlRobot_begin command (Some params)
       = Awaiting (sendCommandToRobot (action t) (direction t) (speed t)
                     (duration t) (extraParams t)).
Proof.
  intros Hv. pose proof (validated_is_valid _ _ Hv) as Hvalid.
  destruct (proj2 (translate_defined_iff command params) Hvalid) as [t Ht].
  exists t. split; [done|]. unfold controlRobot_begin.
  change (default ∅ (Some params)) with params.
  by rewrite (valid_command_nonempty _ Hvalid), Hv, Ht.
Qed.

(** X8. A command that passes [validateCommand] always has a row in the
    [switch] and is sent to the robot: the [default] branch with its
    400 [Unsupported command] answer cannot be reached. *)
Theorem validated_command_is_sent command params :
  validateCommand command params = Normal ->
  exists t,
    translate command params = Some t
    /\ controlRobot_begin command (Some params)
       = Awaiting (sendCommandToRobot (action t) (direction t) (speed t)
                     (duration t) (extraParams t)).
Proof.
  intros Hv. destruct (validated_has_session command params Hv) as [t Ht].
  by exists t.
Qed.

(** X9. A command name outside [validCommands] is answered without looking
    at the parameters and without connecting: 400 [Command is required] for
    the empty name, 500 [Invalid command: ] and the name for any other. *)
Theorem unknown_command_is_refused command
    (body_params : option (gmap jsstring JSValue)) :
  array_includes validCommands command = false ->
  controlRobot_begin command body_params
  = match command with
    | [] => Replied 400 (js "Command is required")
    | _ :: _ => Replied 500 (js "Invalid command: " ++ command)
    end.
Proof.
  intros Hinvalid. unfold controlRobot_begin, validateCommand.
  rewrite Hinvalid. by destruct command.
Qed.

(** Values within the bounds do not fire the range checks. *)
Lemma in_range_not_rejected params :
  match params !! js "speed" with
  | Some (JNum (Finite q)) => (0 <= q /\ q <= 2000)%Q
  | Some _ => False
  | None => True
  end ->
  match params !! js "duration" with
  | Some (JNum (Finite q)) => (q <= 10)%Q
  | Some _ => False
  | None => True
  end ->
  speed_rejected params = false /\ duration_rejected params = false.
Proof.
  intros Hspeed Hdur. split.
  - unfold speed_rejected, param.
    destruct (params !! js "speed") as [[| | |[| |q]| | |]|]; try done.
    destruct Hspeed as [Hlo Hhi]. cbn [default from_option id].
    destruct (js_lt (JNum (Finite q)) 0) eqn:Elt.
    { apply js_lt_finite in Elt. by apply Qlt_not_le in Elt. }
    destruct (js_gt (JNum (Finite q)) 2000) eqn:Egt.
    { apply js_gt_finite in Egt. by apply Qlt_not_le in Egt. }
    apply andb_false_r.
  - unfold duration_rejected, param.
    destruct (params !! js "duration") as [[| | |[| |q]| | |]|]; try done.
    cbn [default from_option id].
    destruct (js_gt (JNum (Finite q)) 10) eqn:Egt.
    { apply js_gt_finite in Egt. by apply Qlt_not_le in Egt. }
    apply andb_false_r.
Qed.

(** X10. The bounds are inclusive and apply to numbers only when present:
    for a command of the table other than [speak], a speed that is absent or
    a number in [0, 2000] and a duration that is absent or a number up to 10
    (negative included) pass validation, and the handler connects. *)
Theorem in_range_values_pass command params :
  array_includes validCommands command = true ->
  str_eqb command (js "speak") = false ->
  match params !! js "speed" with
  | Some (JNum (Finite q)) => (0 <= q /\ q <= 2000)%Q
  | Some _ => False
  | None => True
  end ->
  match params !! js "duration" with
  | Some (JNum (Finite q)) => (q <= 10)%Q
  | Some _ => False
  | None => True
  end ->
  validateCommand command params = Normal
  /\ connects (controlRobot_begin command (Some params)) = true.
Proof.
  intros Hvalid Hspeak Hspeed Hdur.
  destruct (in_range_not_rejected params Hspeed Hdur) as [Hs Hd].
  assert (validateCommand command params = Normal) as Hv.
  { unfold validateCommand. by rewrite Hvalid, Hs, Hd, Hspeak. }
  split; [done|].
  destruct (validated_has_session _ _ Hv) as (t & _ & ->). done.
Qed.

(** X11. The speed is not required to be a number: a non-empty string that
    does not read as a number (such as [fast]) passes the range check, since
    both comparisons with NaN are false, and the message of a movement or
    turret command carries it to the robot unchanged.  The duration is
    absent or a number up to 10. *)
Theorem non_numeric_speed_is_forwarded command params s :
  array_includes movement_commands command = true ->
  params !! js "speed" = Some (JStr s) ->
  s <> [] -> StringToNumber s = NaN ->
  match params !! js "duration" with
  | Some (JNum (Finite q)) => (q <= 10)%Q
  | Some _ => False
  | None => True
  end ->
  validateCommand command params = Normal
  /\ exists t,
      translate command params = Some t
      /\ obj_get (wire_record t) (js "speed") = JStr s
      /\ obj_get (JSON_stringify_members (wire_record t)) (js "speed")
         = JStr s.
Proof.
  intros Hmove Hv Hs Hnan Hdur.
  assert (truthy (JStr s) = true) as Htruthy by (by destruct s).
  assert (ToNumber (JStr s) = NaN) as Hnum by done.
  destruct (translate_movement command params Hmove) as (act & dir & Hdir & Ht).
  assert (array_includes validCommands command = true) as Hvalid.
  { apply (proj1 (translate_defined_iff command params)). by eexists. }
  assert (duration_rejected params = false) as Hd.
  { unfold duration_rejected, param.
    destruct (params !! js "duration") as [[| | |[| |q]| | |]|]; try done.
    cbn [default from_option id].
    destruct (js_gt (JNum (Finite q)) 10) eqn:Egt.
    { apply js_gt_finite in Egt. by apply Qlt_not_le in Egt. }
    apply andb_false_r. }
  split.
  - unfold validateCommand, speed_rejected.
    rewrite Hvalid, Hd, (param_lookup _ _ _ Hv).
    unfold js_lt, js_gt. rewrite Hnum. cbn [num_lt negb orb].
    rewrite andb_false_r.
    destruct (str_eqb command (js "speak")) eqn:Hspeak; [|done].
    apply str_eqb_eq in Hspeak. subst command. by vm_compute in Hmove.
  - eexists. split; [exact Ht|]. rewrite wire_record_movement by done.
    assert (js_or (param params "speed") (num (spec_default_speed command))
            = JStr s) as ->.
    { rewrite (param_lookup _ _ _ Hv). unfold js_or. by rewrite Htruthy. }
    split; [by vm_compute|].
    unfold JSON_stringify_members. cbn [List.filter snd not_undefined].
    destruct (js_or_num (param params "duration") 0) as (_ & _ & ->).
    by vm_compute.
Qed.

(** X12. Parameters the handler does not know are ignored: two parameter
    objects that agree on the eight names it reads are validated alike and
    lead to the same answer or the same message on the wire. *)
Theorem unread_parameters_are_ignored command params params' :
  (forall key, key ∈ known_params -> params !! js key = params' !! js key) ->
  controlRobot_begin command (Some params)
  = controlRobot_begin command (Some params').
Proof.
  intros Hagree.
  assert (forall key, key ∈ known_params ->
                      param params key = param params' key) as Hparam.
  { intros key Hkey. unfold param. by rewrite (Hagree key Hkey). }
  assert (validateCommand command params = validateCommand command params')
    as Hv.
  { unfold validateCommand, speed_rejected, duration_rejected.
    rewrite (Hparam "speed"), (Hparam "duration"), (Hparam "text");
      [done|..]; unfold known_params; set_solver. }
  assert (translate command params = translate command params') as Ht.
  { unfold translate, movement.
    rewrite (Hparam "speed"), (Hparam "duration"), (Hparam "text"),
      (Hparam "l_left"), (Hparam "l_forward"), (Hparam "r_left"),
      (Hparam "r_forward"), (Hparam "frequency");
      [done|..]; unfold known_params; set_solver. }
  unfold controlRobot_begin.
  change (default ∅ (Some params)) with params.
  change (default ∅ (Some params')) with params'.
  by rewrite Hv, Ht.
Qed.

(** X13. [joystick_control] always sends the four axes after the action,
    in the order [l_left], [l_forward], [r_left], [r_forward].  An axis the
    caller left out, or supplied with a falsy value, is sent as 0; any other
    is sent as [JSON.stringify] writes the supplied value, an infinite
    number as [null]. *)
Theorem joystick_record_has_four_axes params :
  (JSON_stringify_members <$> (wire_record <$>
     translate (js "joystick_control") params))
  = Some [(js "action", JStr (js "joystick"));
          (js "l_left", json_value (js_or (param params "l_left") (num 0)));
          (js "l_forward",
           json_value (js_or (param params "l_forward") (num 0)));
          (js "r_left", json_value (js_or (param params "r_left") (num 0)));
          (js "r_forward",
           json_value (js_or (param params "r_forward") (num 0)))].
Proof.
  unfold translate. js_eval. cbv iota. cbn [fmap option_fmap option_map].
  record_eval. unfold JSON_stringify_members.
  cbn [List.filter snd not_undefined].
  destruct (js_or_num (param params "l_left") 0) as (_ & _ & ->).
  destruct (js_or_num (param params "l_forward") 0) as (_ & _ & ->).
  destruct (js_or_num (param params "r_left") 0) as (_ & _ & ->).
  destruct (js_or_num (param params "r_forward") 0) as (_ & _ & ->).
  done.
Qed.

(** X14. A [speak] command that passes validation carries a non-empty
    string of at most 500 code units, and the message on the wire is the
    action [speak] with exactly that text, neither trimmed nor cut. *)
Theorem speak_record_carries_the_text params :
  validateCommand (js "speak") params = Normal ->
  exists text,
    params !! js "text" = Some (JStr text)
    /\ text <> [] /\ (length text <= 500)%nat
    /\ (JSON_stringify_members <$> (wire_record <$>
          translate (js "speak") params))
       = Some [(js "action", JStr (js "speak")); (js "text", JStr text)].
Proof.
  intros Hv. unfold validateCommand in Hv.
  change (array_includes validCommands (js "speak")) with true in Hv.
  change (str_eqb (js "speak") (js "speak")) with true in Hv.
  cbn [negb] in Hv.
  destruct (speed_rejected params); [done|].
  destruct (duration_rejected params); [done|].
  assert (param params "text" = default JUndefined (params !! js "text"))
    as Hparam by done.
  destruct (params !! js "text") as [[| | | |text| |]|] eqn:Htext;
    cbn [default from_option id] in Hparam; rewrite Hparam in Hv;
    cbn [truthy is_string negb orb] in Hv;
    try (rewrite ?orb_true_r in Hv; discriminate Hv).
  destruct text as [|c text]; [done|].
  cbn [negb orb string_length] in Hv.
  destruct (500 <? length (c :: text))%nat eqn:Hlen; [done|].
  apply Nat.ltb_ge in Hlen.
  exists (c :: text). split; [done|]. split; [done|]. split; [done|].
  unfold translate. js_eval. cbv iota. cbn [fmap option_fmap option_map].
  record_eval. by rewrite Hparam.
Qed.

(** A movement row: one action and one direction for all parameters. *)
Lemma translate_movement_row command :
  array_includes movement_commands command = true ->
  exists act dir,
    truthy (JStr (js dir)) = true
    /\ forall params,
         translate command params
         = Some (movement act dir (spec_default_speed command) params).
Proof.
  intros Hin. unfold array_includes, movement_commands in Hin.
  cbn [existsb] in Hin.
  repeat (apply orb_true_iff in Hin as [Hin|Hin];
          [apply str_eqb_eq in Hin; subst command; eexists _, _;
           split; [|intros params; unfold translate; js_eval; reflexivity];
           reflexivity|]).
  done.
Qed.

(** X15. The action and the direction of the message are fixed by the
    command name alone: the caller's parameters can neither change them in
    the translation nor overwrite them in the record that is serialized. *)
Theorem action_is_fixed_by_the_command command params t :
  translate command params = Some t ->
  obj_get (wire_record t) (js "action") = action t
  /\ obj_get (wire_record t) (js "direction") = direction t
  /\ forall params' t',
       translate command params' = Some t' ->
       action t' = action t /\ direction t' = direction t.
Proof.
  intros Ht.
  destruct (array_includes movement_commands command) eqn:Hmove.
  { destruct (translate_movement_row command Hmove) as (act & dir & Hdir & Hrow).
    rewrite Hrow in Ht. injection Ht as <-.
    rewrite wire_record_movement by done.
    split; [by vm_compute|]. split; [by vm_compute|].
    intros params' t' Ht'. rewrite Hrow in Ht'. by injection Ht' as <-. }
  translate_cases Ht; try (by vm_compute in Hmove);
    injection Ht as <-.
  all: unfold wire_record; cbn [action direction speed duration extraParams];
    repeat match goal with
           | |- context [if ?b then _ else _] => destruct b
           end.
  all: split; [by vm_compute|]; split; [by vm_compute|].
  all: intros params' t' Ht'; translate_literal Ht'; by injection Ht' as <-.
Qed.

(** [fly] with an out-of-range speed: the name is refused first. *)
Lemma fly_is_refused :
  controlRobot_begin (js "fly") (Some {[ js "speed" := num 9999 ]})
  = Replied 500 (js "Invalid command: " ++ js "fly").
Proof.
  apply (unknown_command_is_refused (js "fly")
           (Some {[ js "speed" := num 9999 ]})).
  vm_compute. reflexivity.
Defined.

(** [battery] without parameters is sent. *)
Lemma battery_is_sent :
  exists t,
    translate (js "battery") ∅ = Some t
    /\ controlRobot_begin (js "battery") (Some ∅)
       = Awaiting (sendCommandToRobot (action t) (direction t) (speed t)
                     (duration t) (extraParams t)).
Proof.
  apply (validated_command_is_sent (js "battery") ∅).
  vm_compute. reflexivity.
Defined.

(** [turret_left] at the upper bounds: speed 2000 and duration 10. *)
Lemma turret_left_at_the_bounds :
  let params : gmap jsstring JSValue :=
    <[ js "speed" := num 2000 ]> {[ js "duration" := num 10 ]} in
  validateCommand (js "turret_left") params = Normal
  /\ connects (controlRobot_begin (js "turret_left") (Some params)) = true.
Proof.
  apply (in_range_values_pass (js "turret_left")
           (<[ js "speed" := num 2000 ]> {[ js "duration" := num 10 ]})).
  - vm_compute. reflexivity.
  - vm_compute. reflexivity.
  - vm_compute. split; discriminate.
  - vm_compute. discriminate.
Defined.

(** [forward] with the speed [fast]. *)
Lemma forward_fast_is_forwarded :
  let params : gmap jsstring JSValue := {[ js "speed" := JStr (js "fast") ]} in
  validateCommand (js "forward") params = Normal
  /\ exists t,
      translate (js "forward") params = Some t
      /\ obj_get (wire_record t) (js "speed") = JStr (js "fast")
      /\ obj_get (JSON_stringify_members (wire_record t)) (js "speed")
         = JStr (js "fast").
Proof.
  apply (non_numeric_speed_is_forwarded (js "forward")
           {[ js "speed" := JStr (js "fast") ]} (js "fast")).
  - vm_compute. reflexivity.
  - vm_compute. reflexivity.
  - vm_compute. discriminate.
  - vm_compute. reflexivity.
  - vm_compute. exact I.
Defined.

(** [left] with and without a parameter [color]. *)
Lemma left_ignores_color :
  controlRobot_begin (js "left")
    (Some (<[ js "color" := JStr (js "red") ]> {[ js "speed" := num 300 ]}))
  = controlRobot_begin (js "left") (Some {[ js "speed" := num 300 ]}).
Proof.
  apply (unread_parameters_are_ignored (js "left")
           (<[ js "color" := JStr (js "red") ]> {[ js "speed" := num 300 ]})
           {[ js "speed" := num 300 ]}).
  intros key Hkey. unfold known_params in Hkey.
  repeat (apply elem_of_cons in Hkey as [-> | Hkey];
          [vm_compute; reflexivity|]).
  by apply not_elem_of_nil in Hkey.
Defined.

(** [speak] with the text [hello]. *)
Lemma speak_hello_record :
  exists text,
    ({[ js "text" := JStr (js "hello") ]} : gmap jsstring JSValue)
      !! js "text" = Some (JStr text)
    /\ text <> [] /\ (length text <= 500)%nat
    /\ (JSON_stringify_members <$> (wire_record <$>
          translate (js "speak") {[ js "text" := JStr (js "hello") ]}))
       = Some [(js "action", JStr (js "speak")); (js "text", JStr text)].
Proof.
  apply (speak_record_carries_the_text {[ js "text" := JStr (js "hello") ]}).
  vm_compute. reflexivity.
Defined.

(** [beep] with a frequency: action and direction are those of the row. *)
Lemma beep_action_is_fixed :
  let t := mkTranslation (JStr (js "beep")) JUndefined JUndefined JUndefined
             [(js "frequency", num 440)] in
  obj_get (wire_record t) (js "action") = action t
  /\ obj_get (wire_record t) (js "direction") = direction t
  /\ forall params' t',
       translate (js "beep") params' = Some t' ->
       action t' = action t /\ direction t' = direction t.
Proof.
  apply (action_is_fixed_by_the_command (js "beep")
           {[ js "frequency" := num 440 ]}).
  vm_compute. reflexivity.
Defined.

End Rows.
(** ** The authentication gate *)

Section Gate.

Implicit Types (headers : gmap jsstring jsstring) (env : option jsstring)
  (requestCounts : gmap jsstring (list Z)) (clientId : jsstring)
  (now : Z) (requests : list Z).

Lemma String_replace_unfold (s pat rep : jsstring) :
  String_replace s pat rep
  = if startsWith s pat then rep ++ drop (length pat) s
    else match s with
         | [] => []
         | c :: rest => c :: String_replace rest pat rep
         end.
Proof. by destruct s. Qed.

Lemma String_replace_prefix (s pat rep : jsstring) :
  String_replace (pat ++ s) pat rep = rep ++ s.
Proof.
  rewrite String_replace_unfold.
  assert (startsWith (pat ++ s) pat = true) as ->.
  { apply startsWith_spec. by exists s. }
  by rewrite drop_app_length.
Qed.

Lemma String_replace_absent (s pat rep : jsstring) :
  includes s pat = false -> String_replace s pat rep = s.
Proof.
  induction s as [|c s IH]; intros Hno; rewrite String_replace_unfold.
  - cbn in Hno. rewrite orb_false_r in Hno. by rewrite Hno.
  - cbn [includes] in Hno. apply orb_false_iff in Hno as [-> Hno].
    by rewrite IH.
Qed.

Lemma API_KEY_nonempty env : API_KEY env <> [].
Proof. unfold API_KEY, js_or. by destruct env as [[|c k]|]. Qed.

Lemma differs_from_false (v : JSValue) (s : jsstring) :
  differs_from v s = false <-> v = JStr s.
Proof.
  destruct v; cbn; try (split; [done | discriminate]).
  rewrite negb_false_iff, str_eqb_eq. split; [by intros -> | by intros [= ->]].
Qed.

(** X16. Which requests carry an accepted key.  A non-empty [x-api-key]
    header is the key presented, and the [Authorization] header is not
    looked at; otherwise the key presented is the [Authorization] header
    with its first [Bearer ] removed.  The request is accepted exactly when
    the key presented equals the configured key, which is never empty. *)
Theorem api_key_is_accepted_iff env headers :
  validateApiKey env headers = Normal
  <-> match headers !! js "x-api-key" with
      | Some (c :: key) => c :: key = API_KEY env
      | _ =>
          exists a,
            headers !! js "authorization" = Some a
            /\ String_replace a (js "Bearer ") [] = API_KEY env
      end.
Proof.
  pose proof (API_KEY_nonempty env) as Hne.
  unfold validateApiKey, header, js_or.
  destruct (headers !! js "x-api-key") as [[|c key]|];
    cbn [truthy negb].
  3: { destruct (headers !! js "authorization") as [a|]; cbn [truthy negb].
       - destruct (String_replace a (js "Bearer ") []) as [|c k] eqn:Hr;
           cbn [negb].
         + split; [done|]. intros (a' & [= <-] & Hk). congruence.
         + destruct (differs_from _ _) eqn:Hd.
           * split; [done|]. intros (a' & [= <-] & Hk).
             rewrite Hr in Hk. rewrite <- Hk in Hd.
             unfold differs_from in Hd. by rewrite str_eqb_refl in Hd.
           * apply differs_from_false in Hd. injection Hd as Hd.
             split; [|done]. intros _. exists a. by rewrite Hr.
       - split; [done|]. by intros (a & ? & _). }
  - destruct (headers !! js "authorization") as [a|]; cbn [truthy negb].
    + destruct (String_replace a (js "Bearer ") []) as [|c k] eqn:Hr;
        cbn [negb].
      * split; [done|]. intros (a' & [= <-] & Hk). congruence.
      * destruct (differs_from _ _) eqn:Hd.
        -- split; [done|]. intros (a' & [= <-] & Hk).
           rewrite Hr in Hk. rewrite <- Hk in Hd.
           unfold differs_from in Hd. by rewrite str_eqb_refl in Hd.
        -- apply differs_from_false in Hd. injection Hd as Hd.
           split; [|done]. intros _. exists a. by rewrite Hr.
    + split; [done|]. by intros (a & ? & _).
  - destruct (differs_from _ _) eqn:Hd.
    + split; [done|]. intros Hk. rewrite <- Hk in Hd.
      unfold differs_from in Hd. by rewrite str_eqb_refl in Hd.
    + apply differs_from_false in Hd. by injection Hd as Hd.
Qed.

(** X17. A request without an [x-api-key] header whose [Authorization]
    header is [Bearer ] followed by the configured key is accepted. *)
Theorem bearer_token_is_accepted env headers :
  headers !! js "x-api-key" = None ->
  headers !! js "authorization" = Some (js "Bearer " ++ API_KEY env) ->
  validateApiKey env headers = Normal.
Proof.
  intros Hx Ha. unfold validateApiKey, header. rewrite Hx, Ha.
  rewrite String_replace_prefix. cbn [app]. unfold js_or. cbn [truthy].
  pose proof (API_KEY_nonempty env) as Hne.
  destruct (API_KEY env) as [|c key] eqn:Hkey; [done|].
  cbn [truthy negb differs_from]. by rewrite str_eqb_refl.
Qed.

End Gate.
(** ** The rate limiter *)

Section RateLimit.

Implicit Types (requestCounts : gmap jsstring (list Z)) (clientId : jsstring)
  (now base : Z) (requests times : list Z).

(** [rateLimitCheck] in terms of the client's own entry. *)
Lemma rateLimitCheck_entry clientId now requestCounts :
  let r := recent (now - RATE_LIMIT_WINDOW)
                  (default [] (requestCounts !! clientId)) in
  rateLimitCheck clientId now requestCounts
  = if (MAX_REQUESTS_PER_WINDOW <=? length r)%nat
    then (Throw rate_limit_message, requestCounts)
    else (Normal, <[clientId := r ++ [now]]> requestCounts).
Proof.
  unfold rateLimitCheck.
  destruct (requestCounts !! clientId) as [l|] eqn:Hl.
  - by rewrite Hl.
  - rewrite lookup_insert_eq. cbn. by rewrite insert_insert_eq.
Qed.

Lemma recent_all windowStart requests :
  Forall (fun t => (windowStart < t)%Z) requests ->
  recent windowStart requests = requests.
Proof.
  induction 1 as [|t l Ht _ IH]; [done|]. cbn.
  apply Z.ltb_lt in Ht. rewrite Ht. f_equal. exact IH.
Qed.

Lemma recent_none windowStart requests :
  Forall (fun t => (t <= windowStart)%Z) requests ->
  recent windowStart requests = [].
Proof.
  induction 1 as [|t l Ht _ IH]; [done|]. cbn.
  apply Z.ltb_ge in Ht. by rewrite Ht.
Qed.

Lemma recent_are_recent windowStart requests :
  Forall (fun t => (windowStart < t)%Z) (recent windowStart requests).
Proof.
  induction requests as [|t l IH]; [constructor|]. cbn.
  destruct (windowStart <? t)%Z eqn:Ht; [|done].
  constructor; [by apply Z.ltb_lt | done].
Qed.

Lemma rateLimitCheck_throws clientId now requestCounts msg after :
  rateLimitCheck clientId now requestCounts = (Throw msg, after) ->
  msg = rate_limit_message /\ after = requestCounts
  /\ (MAX_REQUESTS_PER_WINDOW
      <= length (recent (now - RATE_LIMIT_WINDOW)
                        (default [] (requestCounts !! clientId))))%nat.
Proof.
  rewrite rateLimitCheck_entry. cbv zeta.
  destruct (MAX_REQUESTS_PER_WINDOW <=? _)%nat eqn:Hfull; [|done].
  intros [= <- <-]. apply Nat.leb_le in Hfull. done.
Qed.

(** X18. A refused request is not recorded: when [rateLimitCheck] throws,
    it throws the rate-limit message and leaves [requestCounts] as it was,
    so requests made while blocked do not prolong the block. *)
Theorem refused_request_is_not_recorded clientId now requestCounts msg after :
  rateLimitCheck clientId now requestCounts = (Throw msg, after) ->
  msg = rate_limit_message /\ after = requestCounts
  /\ (MAX_REQUESTS_PER_WINDOW
      <= length (recent (now - RATE_LIMIT_WINDOW)
                        (default [] (requestCounts !! clientId))))%nat.
Proof.
  intros Hthrow.
  by destruct (rateLimitCheck_throws _ _ _ _ _ Hthrow) as (? & ? & ?).
Qed.

(** X19. An accepted request is recorded last in the client's entry, after
    the timestamps of the last 60 seconds; the entry then holds at most 100
    timestamps, every one of them newer than [now - 60000], and the entries
    of all other clients are untouched. *)
Theorem accepted_request_is_recorded clientId now requestCounts after :
  rateLimitCheck clientId now requestCounts = (Normal, after) ->
  exists kept,
    kept = recent (now - RATE_LIMIT_WINDOW)
                  (default [] (requestCounts !! clientId))
    /\ after !! clientId = Some (kept ++ [now])
    /\ (length (kept ++ [now]) <= MAX_REQUESTS_PER_WINDOW)%nat
    /\ Forall (fun t => (now - RATE_LIMIT_WINDOW < t)%Z) (kept ++ [now])
    /\ forall other, other <> clientId ->
                     after !! other = requestCounts !! other.
Proof.
  rewrite rateLimitCheck_entry. cbv zeta.
  destruct (MAX_REQUESTS_PER_WINDOW <=? _)%nat eqn:Hfull; [done|].
  intros [= <-]. apply Nat.leb_gt in Hfull.
  eexists. split; [reflexivity|]. split; [by rewrite lookup_insert_eq|].
  split; [rewrite length_app; cbn; lia|]. split.
  - apply Forall_app. split; [apply recent_are_recent|].
    constructor; [|constructor]. unfold RATE_LIMIT_WINDOW. lia.
  - intros other Hne. by rewrite lookup_insert_ne.
Qed.

(** X20. The limit is per client: the completion of a check depends only
    on the client's own entry, and a check never changes the entry of
    another client. *)
Theorem rate_limit_is_per_client clientId other now requestCounts requests :
  other <> clientId ->
  (rateLimitCheck clientId now (<[other := requests]> requestCounts)).1
  = (rateLimitCheck clientId now requestCounts).1
  /\ (rateLimitCheck clientId now requestCounts).2 !! other
     = requestCounts !! other.
Proof.
  intros Hne. rewrite !rateLimitCheck_entry. cbv zeta.
  rewrite lookup_insert_ne by done.
  destruct (MAX_REQUESTS_PER_WINDOW <=? _)%nat; cbn [fst snd];
    [done|]. by rewrite lookup_insert_ne.
Qed.

(** X21. Once every recorded timestamp of a client is at least 60 seconds
    old, the client is accepted again and its entry is reduced to the new
    timestamp alone. *)
Theorem rate_limit_recovers clientId now requestCounts requests :
  requestCounts !! clientId = Some requests ->
  Forall (fun t => (t <= now - RATE_LIMIT_WINDOW)%Z) requests ->
  rateLimitCheck clientId now requestCounts
  = (Normal, <[clientId := [now]]> requestCounts).
Proof.
  intros Hl Hold. rewrite rateLimitCheck_entry. cbv zeta.
  rewrite Hl. cbn [default from_option id]. by rewrite recent_none.
Qed.

Lemma rateLimit_calls_window clientId base times :
  Forall (fun t => (base <= t < base + RATE_LIMIT_WINDOW)%Z) times ->
  forall requestCounts requests,
    default [] (requestCounts !! clientId) = requests ->
    Forall (fun t => (base <= t)%Z) requests ->
    (rateLimit_calls clientId times requestCounts).1
    = replicate (length times
                   `min` (MAX_REQUESTS_PER_WINDOW - length requests)) Normal
      ++ replicate (length times
                    - (MAX_REQUESTS_PER_WINDOW - length requests))
           (Throw rate_limit_message).
Proof.
  induction 1 as [|now times Hnow _ IH]; intros requestCounts requests Hl Hbase;
    [done|].
  cbn [rateLimit_calls]. rewrite rateLimitCheck_entry. cbv zeta. rewrite Hl.
  assert (recent (now - RATE_LIMIT_WINDOW) requests = requests) as ->.
  { apply recent_all. eapply Forall_impl; [exact Hbase|]. cbn. lia. }
  destruct (MAX_REQUESTS_PER_WINDOW <=? length requests)%nat eqn:Hfull.
  - apply Nat.leb_le in Hfull.
    specialize (IH requestCounts requests Hl Hbase).
    destruct (rateLimit_calls clientId times requestCounts) as [cs rc'].
    cbn [fst] in *. rewrite IH.
    replace (MAX_REQUESTS_PER_WINDOW - length requests)%nat with 0%nat by lia.
    rewrite !Nat.min_0_r, !Nat.sub_0_r. done.
  - apply Nat.leb_gt in Hfull.
    specialize (IH (<[clientId := requests ++ [now]]> requestCounts)
                   (requests ++ [now])).
    rewrite lookup_insert_eq in IH. specialize (IH eq_refl).
    assert (Forall (fun t => (base <= t)%Z) (requests ++ [now])) as Hbase'.
    { apply Forall_app. split; [done|]. constructor; [lia|constructor]. }
    specialize (IH Hbase').
    destruct (rateLimit_calls clientId times _) as [cs rc'].
    cbn [fst] in *. rewrite IH, length_app. cbn [length].
    replace (MAX_REQUESTS_PER_WINDOW - length requests)%nat
      with (S (MAX_REQUESTS_PER_WINDOW - (length requests + 1)))%nat by lia.
    rewrite <- Nat.succ_min_distr. cbn [replicate app]. do 2 f_equal.
Qed.

(** X22. One hundred requests per window: when a client without an entry
    makes requests at times that all fall within one interval of 60 seconds,
    in any order, the first hundred are accepted and every further one is
    refused. *)
Theorem hundred_requests_per_window clientId base times requestCounts :
  requestCounts !! clientId = None ->
  Forall (fun t => (base <= t < base + RATE_LIMIT_WINDOW)%Z) times ->
  (rateLimit_calls clientId times requestCounts).1
  = replicate (length times `min` 100) Normal
    ++ replicate (length times - 100) (Throw rate_limit_message).
Proof.
  intros Hnone Htimes.
  rewrite (rateLimit_calls_window clientId base times Htimes requestCounts []);
    [done| by rewrite Hnone | constructor].
Qed.

Lemma recent_cons windowStart t requests :
  recent windowStart (t :: requests)
  = if (windowStart <? t)%Z then t :: recent windowStart requests
    else recent windowStart requests.
Proof. done. Qed.

Lemma recent_timer_filter (clock : nat -> Z) now requests :
  (forall i, (clock i <= now)%Z) ->
  forall i,
    recent (now - RATE_LIMIT_WINDOW) (timer_filter clock i requests)
    = recent (now - RATE_LIMIT_WINDOW) requests.
Proof.
  intros Hclock. induction requests as [|t l IH]; intros i; [done|].
  cbn [timer_filter]. specialize (Hclock i).
  destruct (clock i - RATE_LIMIT_WINDOW <? t)%Z eqn:Hkeep.
  - by rewrite !recent_cons, IH.
  - apply Z.ltb_ge in Hkeep. rewrite recent_cons, IH.
    assert ((now - RATE_LIMIT_WINDOW <? t)%Z = false) as ->; [|done].
    apply Z.ltb_ge. lia.
Qed.

Lemma timer_entry (clock : nat -> Z) clientId requestCounts :
  default [] (rateLimit_timer clientId clock requestCounts !! clientId)
  = timer_filter clock 0 (default [] (requestCounts !! clientId)).
Proof.
  unfold rateLimit_timer.
  destruct (requestCounts !! clientId) as [l|] eqn:Hl; [|by rewrite Hl].
  cbn [default from_option id].
  destruct (timer_filter clock 0 l) as [|t l'] eqn:Hf; cbn.
  - by rewrite lookup_delete_eq.
  - by rewrite lookup_insert_eq.
Qed.

(** X23. The clean-up timer is invisible to the limiter: whichever client's
    timer has run, with clock readings not later than [now], a check at
    [now] completes as it would have without the timer, and an accepted
    check records the same entry.  The timer never leaves an empty entry. *)
Theorem timer_does_not_change_the_verdict
    (clock : nat -> Z) clientId swept now requestCounts :
  (forall i, (clock i <= now)%Z) ->
  let cleaned := rateLimit_timer swept clock requestCounts in
  (rateLimitCheck clientId now cleaned).1
  = (rateLimitCheck clientId now requestCounts).1
  /\ ((rateLimitCheck clientId now requestCounts).1 = Normal ->
      (rateLimitCheck clientId now cleaned).2 !! clientId
      = (rateLimitCheck clientId now requestCounts).2 !! clientId)
  /\ cleaned !! swept <> Some [].
Proof.
  intros Hclock cleaned.
  assert (recent (now - RATE_LIMIT_WINDOW) (default [] (cleaned !! clientId))
          = recent (now - RATE_LIMIT_WINDOW)
                   (default [] (requestCounts !! clientId))) as Hsame.
  { destruct (decide (swept = clientId)) as [->|Hne].
    - subst cleaned. by rewrite timer_entry, recent_timer_filter.
    - subst cleaned. unfold rateLimit_timer.
      destruct (requestCounts !! swept); [|done].
      destruct (length _ =? 0)%nat;
        by rewrite ?lookup_delete_ne, ?lookup_insert_ne. }
  rewrite !rateLimitCheck_entry. cbv zeta. rewrite Hsame.
  split; [by destruct (MAX_REQUESTS_PER_WINDOW <=? _)%nat|]. split.
  - destruct (MAX_REQUESTS_PER_WINDOW <=? _)%nat; cbn [fst snd]; [done|].
    intros _. by rewrite !lookup_insert_eq.
  - subst cleaned. unfold rateLimit_timer.
    destruct (requestCounts !! swept) as [l|] eqn:Hl; [|by rewrite Hl].
    destruct (timer_filter clock 0 l) as [|t l'] eqn:Hf; cbn.
    + by rewrite lookup_delete_eq.
    + by rewrite lookup_insert_eq.
Qed.

End RateLimit.
(** ** The gate on sample requests *)

(** [Authorization: Bearer s3cret] with the key [s3cret] configured. *)
Lemma bearer_s3cret :
  validateApiKey (Some (js "s3cret"))
    {[ js "authorization" := js "Bearer " ++ API_KEY (Some (js "s3cret")) ]}
  = Normal.
Proof.
  apply (bearer_token_is_accepted (Some (js "s3cret"))
           {[ js "authorization" := js "Bearer " ++ API_KEY (Some (js "s3cret")) ]}).
  - vm_compute. reflexivity.
  - vm_compute. reflexivity.
Defined.

(** A client with one hundred requests at time 0, asking again at 59999. *)
Lemma request_101_is_refused :
  rate_limit_message = rate_limit_message
  /\ ({[ js "a" := replicate 100 0%Z ]} : gmap jsstring (list Z))
     = {[ js "a" := replicate 100 0%Z ]}
  /\ (MAX_REQUESTS_PER_WINDOW
      <= length (recent (59999 - RATE_LIMIT_WINDOW)
                   (default []
                      (({[ js "a" := replicate 100 0%Z ]}
                        : gmap jsstring (list Z)) !! js "a"))))%nat.
Proof.
  apply (refused_request_is_not_recorded (js "a") 59999
           {[ js "a" := replicate 100 0%Z ]}).
  vm_compute. reflexivity.
Defined.

(** The same client at 60000: the old timestamps have expired. *)
Lemma request_after_a_minute :
  rateLimitCheck (js "a") 60000 {[ js "a" := replicate 100 0%Z ]}
  = (Normal, <[ js "a" := [60000%Z] ]> {[ js "a" := replicate 100 0%Z ]}).
Proof.
  apply (rate_limit_recovers (js "a") 60000
           {[ js "a" := replicate 100 0%Z ]} (replicate 100 0%Z)).
  - vm_compute. reflexivity.
  - apply Forall_forall. intros t Ht.
    apply elem_of_replicate in Ht as [-> _]. vm_compute. discriminate.
Defined.

(** A first request at time 5. *)
Lemma first_request_is_recorded :
  exists kept,
    kept = recent (5 - RATE_LIMIT_WINDOW)
                  (default [] ((∅ : gmap jsstring (list Z)) !! js "a"))
    /\ ({[ js "a" := [5%Z] ]} : gmap jsstring (list Z)) !! js "a"
       = Some (kept ++ [5%Z])
    /\ (length (kept ++ [5%Z]) <= MAX_REQUESTS_PER_WINDOW)%nat
    /\ Forall (fun t => (5 - RATE_LIMIT_WINDOW < t)%Z) (kept ++ [5%Z])
    /\ forall other, other <> js "a" ->
                     ({[ js "a" := [5%Z] ]} : gmap jsstring (list Z)) !! other
                     = (∅ : gmap jsstring (list Z)) !! other.
Proof.
  apply (accepted_request_is_recorded (js "a") 5 ∅ {[ js "a" := [5%Z] ]}).
  vm_compute. reflexivity.
Defined.

(** Two clients [a] and [b]. *)
Lemma clients_a_and_b :
  (rateLimitCheck (js "a") 7 (<[ js "b" := replicate 100 0%Z ]> ∅)).1
  = (rateLimitCheck (js "a") 7 ∅).1
  /\ (rateLimitCheck (js "a") 7 ∅).2 !! js "b"
     = (∅ : gmap jsstring (list Z)) !! js "b".
Proof.
  apply (rate_limit_is_per_client (js "a") (js "b") 7 ∅ (replicate 100 0%Z)).
  intros H. vm_compute in H. discriminate H.
Defined.

(** One hundred and three requests in the same millisecond. *)
Lemma burst_of_103 :
  (rateLimit_calls (js "a") (replicate 103 0%Z) ∅).1
  = replicate (length (replicate 103 0%Z) `min` 100) Normal
    ++ replicate (length (replicate 103 0%Z) - 100) (Throw rate_limit_message).
Proof.
  apply (hundred_requests_per_window (js "a") 0 (replicate 103 0%Z) ∅).
  - vm_compute. reflexivity.
  - apply Forall_forall. intros t Ht.
    apply elem_of_replicate in Ht as [-> _]. split; [discriminate | reflexivity].
Defined.

(** The timer of client [a] at time 70000, then a check at 70001. *)
Lemma timer_then_check :
  let requestCounts : gmap jsstring (list Z) := {[ js "a" := [5%Z; 69000%Z] ]} in
  let cleaned := rateLimit_timer (js "a") (fun _ => 70000%Z) requestCounts in
  (rateLimitCheck (js "a") 70001 cleaned).1
  = (rateLimitCheck (js "a") 70001 requestCounts).1
  /\ ((rateLimitCheck (js "a") 70001 requestCounts).1 = Normal ->
      (rateLimitCheck (js "a") 70001 cleaned).2 !! js "a"
      = (rateLimitCheck (js "a") 70001 requestCounts).2 !! js "a")
  /\ cleaned !! js "a" <> Some [].
Proof.
  apply (timer_does_not_change_the_verdict (fun _ => 70000%Z)
           (js "a") (js "a") 70001 {[ js "a" := [5%Z; 69000%Z] ]}).
  intros _. discriminate.
Defined.
(** ** The handler behind its gate *)

Section Handler.

Variables (sha256_hex : jsstring -> jsstring) (env : option jsstring).

Implicit Types (req : Request) (now : Z)
  (requestCounts after : gmap jsstring (list Z)).


(** X24. The robot is contacted only through the whole gate: when the
    handler goes on to open a connection, the request was a POST, carried
    an accepted key, was within its client's rate limit and has been
    recorded there, and its command passed validation. *)
Theorem robot_is_contacted_only_through_the_gate req now requestCounts p after :
  controlRobot_handler sha256_hex env req now requestCounts = (p, after) ->
  connects p = true ->
  req_method req = js "POST"
  /\ validateApiKey env (req_headers req) = Normal
  /\ rateLimitCheck
       (getClientId sha256_hex (req_headers req) (req_remoteAddress req))
       now requestCounts = (Normal, after)
  /\ validateCommand (req_command req) (default ∅ (req_params req)) = Normal.
Proof.
  unfold controlRobot_handler, authenticateRequest.
  destruct (is_preflight (req_method req)); [by intros [= <- _]|].
  destruct (str_eqb (req_method req) (js "POST")) eqn:Hpost; cbn [negb];
    [|by intros [= <- _]].
  apply str_eqb_eq in Hpost.
  destruct (validateApiKey env (req_headers req)); [|by intros [= <- _]].
  destruct (rateLimitCheck _ now requestCounts) as [[|msg] rc'];
    [|by intros [= <- _]].
  intros [= <- <-] Hconn. split; [done|]. split; [done|]. split; [done|].
  unfold controlRobot_begin in Hconn.
  destruct (negb _); [done|]. by destruct (validateCommand _ _).
Qed.


Lemma split_char_first (sep : N) (ip tail : jsstring) :
  sep ∉ ip -> tail = [] \/ (exists rest, tail = sep :: rest) ->
  hd [] (split_char sep (ip ++ tail)) = ip.
Proof.
  intros Hno Htail. induction ip as [|c ip IH]; cbn [app].
  - destruct Htail as [->|[rest ->]]; [done|]. cbn. by rewrite N.eqb_refl.
  - apply not_elem_of_cons in Hno as [Hne Hno]. cbn [split_char].
    assert ((c =? sep) = false) as -> by (apply N.eqb_neq; congruence).
    specialize (IH Hno). by destruct (split_char sep (ip ++ tail)); subst.
Qed.

(** X26. The rate-limit bucket of a request with an [X-Forwarded-For]
    header is the hash of the header's first entry, trimmed, followed by the
    user agent ([unknown] when the header is missing or empty); the later
    entries and the socket's own address play no part. *)
Theorem client_id_uses_first_forwarded_entry
    (headers : gmap jsstring jsstring) remoteAddress (ip tail : jsstring) :
  headers !! js "x-forwarded-for" = Some (ip ++ tail) ->
  ip ++ tail <> [] ->
  COMMA ∉ ip -> tail = [] \/ (exists rest, tail = COMMA :: rest) ->
  getClientId sha256_hex headers remoteAddress
  = sha256_hex (trim ip ++ match headers !! js "user-agent" with
                          | Some (c :: agent) => c :: agent
                          | _ => js "unknown"
                          end).
Proof.
  intros Hf Hne Hno Htail. unfold getClientId, header. rewrite Hf.
  assert (truthy (JStr (ip ++ tail)) = true) as ->.
  { cbn. by destruct (ip ++ tail). }
  rewrite split_char_first by done. f_equal. f_equal.
  unfold js_or. by destruct (headers !! js "user-agent") as [[|c agent]|].
Qed.

End Handler.

(** A POST of [stop] with the default key from a fresh client. *)
Lemma stop_through_the_gate :
  let req := mkRequest (js "POST")
               {[ js "x-api-key" := js "your-secret-api-key" ]}
               (Some (js "10.0.0.7")) (js "stop") None in
  let id := getClientId (fun s => s) (req_headers req) (req_remoteAddress req) in
  req_method req = js "POST"
  /\ validateApiKey None (req_headers req) = Normal
  /\ rateLimitCheck id 1000 ∅ = (Normal, {[ id := [1000%Z] ]})
  /\ validateCommand (req_command req) (default ∅ (req_params req)) = Normal.
Proof.
  apply (robot_is_contacted_only_through_the_gate (fun s => s) None
           (mkRequest (js "POST")
              {[ js "x-api-key" := js "your-secret-api-key" ]}
              (Some (js "10.0.0.7")) (js "stop") None)
           1000 ∅
           (controlRobot_begin (js "stop") None)).
  - vm_compute. reflexivity.
  - vm_compute. reflexivity.
Defined.


(** The header [203.0.113.9, 10.0.0.1] with the agent [curl]. *)
Lemma forwarded_for_first_entry :
  getClientId (fun s => s)
    (<[ js "x-forwarded-for" := js " 203.0.113.9" ++ COMMA :: js " 10.0.0.1" ]>
       {[ js "user-agent" := js "curl" ]})
    (Some (js "10.0.0.1"))
  = trim (js " 203.0.113.9")
    ++ match (<[ js "x-forwarded-for" :=
                   js " 203.0.113.9" ++ COMMA :: js " 10.0.0.1" ]>
                {[ js "user-agent" := js "curl" ]} : gmap jsstring jsstring)
             !! js "user-agent" with
       | Some (c :: agent) => c :: agent
       | _ => js "unknown"
       end.
Proof.
  apply (client_id_uses_first_forwarded_entry (fun s => s)
           (<[ js "x-forwarded-for" := js " 203.0.113.9" ++ COMMA :: js " 10.0.0.1" ]>
              {[ js "user-agent" := js "curl" ]})
           (Some (js "10.0.0.1")) (js " 203.0.113.9") (COMMA :: js " 10.0.0.1")).
  - vm_compute. reflexivity.
  - vm_compute. discriminate.
  - vm_compute. intros H.
    repeat (apply elem_of_cons in H as [H|H]; [discriminate H|]).
    by apply not_elem_of_nil in H.
  - right. eexists. reflexivity.
Defined.
(** ** The example client against the handler *)

Section Controller.

Lemma movement_in_range (command : jsstring)
    (params : gmap jsstring JSValue) (q r : Q) :
  array_includes movement_commands command = true ->
  params !! js "speed" = Some (JNum (Finite q)) ->
  params !! js "duration" = Some (JNum (Finite r)) ->
  (0 < q /\ q <= 2000)%Q -> (0 < r /\ r <= 10)%Q ->
  validateCommand command params = Normal
  /\ exists t,
      translate command params = Some t
      /\ obj_get (wire_record t) (js "speed") = JNum (Finite q)
      /\ obj_get (wire_record t) (js "duration") = JNum (Finite r).
Proof.
  intros Hmove Hq Hr [Hq0 Hq1] [Hr0 Hr1].
  destruct (movement_record_values command params Hmove)
    as (t & Ht & Hsp & Hdu).
  assert (array_includes validCommands command = true) as Hvalid.
  { apply (proj1 (translate_defined_iff command params)). by exists t. }
  assert (str_eqb command (js "speak") = false) as Hspeak.
  { destruct (str_eqb command (js "speak")) eqn:E; [|done].
    apply str_eqb_eq in E. subst command. by vm_compute in Hmove. }
  split.
  - destruct (in_range_not_rejected params) as [Hs Hd].
    + rewrite Hq. split; [by apply Qlt_le_weak | done].
    + by rewrite Hr.
    + unfold validateCommand. by rewrite Hvalid, Hs, Hd, Hspeak.
  - exists t. split; [done|].
    rewrite Hsp, Hdu, (param_lookup _ _ _ Hq), (param_lookup _ _ _ Hr).
    unfold js_or.
    assert (truthy (JNum (Finite q)) = true) as ->.
    { apply truthy_finite. intros Hz. rewrite Hz in Hq0.
      by apply Qlt_irrefl in Hq0. }
    assert (truthy (JNum (Finite r)) = true) as ->; [|done].
    apply truthy_finite. intros Hz. rewrite Hz in Hr0.
    by apply Qlt_irrefl in Hr0.
Qed.

Lemma request_params_movement (sp du : JSValue) :
  not_undefined sp = true -> not_undefined du = true ->
  request_params [(js "speed", sp); (js "duration", du)]
  = <[ js "speed" := json_value sp ]> {[ js "duration" := json_value du ]}.
Proof.
  intros Hs Hd. unfold request_params, JSON_stringify_members.
  cbn [List.filter snd]. rewrite Hs, Hd. done.
Qed.

Ltac method_cases Hm :=
  unfold movement_methods in Hm;
  repeat (apply elem_of_cons in Hm as [-> | Hm]; [|]);
  [..| by apply not_elem_of_nil in Hm].

(** X27. The six movement methods of [MindstormsController]: called with a
    speed in (0, 2000] and a duration in (0, 10], the request passes the
    handler's validation and the message for the robot carries exactly that
    speed and that duration. *)
Theorem controller_movement_reaches_the_wire
    (m : JSValue -> JSValue -> jsstring * JSObject) (q r : Q) :
  m ∈ movement_methods ->
  (0 < q /\ q <= 2000)%Q -> (0 < r /\ r <= 10)%Q ->
  let call := m (JNum (Finite q)) (JNum (Finite r)) in
  validateCommand call.1 (request_params call.2) = Normal
  /\ exists t,
      translate call.1 (request_params call.2) = Some t
      /\ obj_get (wire_record t) (js "speed") = JNum (Finite q)
      /\ obj_get (wire_record t) (js "duration") = JNum (Finite r).
Proof.
  intros Hm Hq Hr. cbv zeta.
  method_cases Hm;
    unfold moveForward, moveBackward, turnLeft, turnRight, turretLeft,
      turretRight, movement_method, sendCommand;
    cbn [fst snd default_arg];
    rewrite request_params_movement by done;
    by apply movement_in_range.
Qed.

(** X28. The defaults of the client are those of the handler: a movement
    method called without arguments, and [joystickControl] called without
    arguments, lead the handler to the same message for the robot as the
    bare command sent without parameters. *)
Theorem controller_defaults_match_the_handler
    (m : JSValue -> JSValue -> jsstring * JSObject) :
  m ∈ movement_methods ->
  let call := m JUndefined JUndefined in
  let joystick := joystickControl JUndefined JUndefined JUndefined JUndefined in
  controlRobot_begin call.1 (Some (request_params call.2))
  = controlRobot_begin call.1 None
  /\ controlRobot_begin joystick.1 (Some (request_params joystick.2))
     = controlRobot_begin joystick.1 None.
Proof.
  intros Hm. cbv zeta. split; [|by vm_compute].
  method_cases Hm; by vm_compute.
Qed.

(** [turnLeft(250, 1.5)] *)
Lemma turn_left_250 :
  let call := turnLeft (JNum (Finite 250)) (JNum (Finite (3 # 2))) in
  validateCommand call.1 (request_params call.2) = Normal
  /\ exists t,
      translate call.1 (request_params call.2) = Some t
      /\ obj_get (wire_record t) (js "speed") = JNum (Finite 250)
      /\ obj_get (wire_record t) (js "duration") = JNum (Finite (3 # 2)).
Proof.
  apply (controller_movement_reaches_the_wire turnLeft 250 (3 # 2)).
  - unfold movement_methods. do 2 apply list_elem_of_further.
    apply list_elem_of_here.
  - split; [reflexivity | discriminate].
  - split; [reflexivity | discriminate].
Defined.

(** [turretRight()] and [joystickControl()] *)
Lemma turret_right_defaults :
  let call := turretRight JUndefined JUndefined in
  let joystick := joystickControl JUndefined JUndefined JUndefined JUndefined in
  controlRobot_begin call.1 (Some (request_params call.2))
  = controlRobot_begin call.1 None
  /\ controlRobot_begin joystick.1 (Some (request_params joystick.2))
     = controlRobot_begin joystick.1 None.
Proof.
  apply (controller_defaults_match_the_handler turretRight).
  unfold movement_methods. do 5 apply list_elem_of_further.
  apply list_elem_of_here.
Defined.

End Controller.
